(** * A shallow embedding of the dataplicity M2M client (m2mclient)

    The Python modules modelled here are [bencode.py], [packetbase.py],
    [packets.py], [dispatcher.py] and the parts of [client.py] that handle
    command results.

    Conventions of the embedding:
    - Python [bytes] are [list byte].
    - A Python value is a [pyval].  Text ([str]) is held as its UTF-8
      encoding ([PStr]); a [PStr] and a [PBytes] with the same content are
      different Python values ([b'ok' != 'ok']).  Python [bool] (an [int]
      subclass) is not represented.
    - Code that can raise returns an [outcome]: a value, a raised Python
      exception, or [Diverge] when the fuel given to the loops of the code
      runs out (a loop that never exits gives [Diverge] for every fuel). *)

From Stdlib Require Import ZArith List String Bool Lia.
From Stdlib Require Import Strings.Byte.
Import ListNotations.

Open Scope Z_scope.
Open Scope list_scope.
Set Warnings "-register-all".

(** ** Python values, exceptions and outcomes *)

Definition bytes := list byte.

(** [b"..."] literals *)
Definition bs (s : string) : bytes := list_byte_of_string s.

Inductive pyval : Type :=
| PNone
| PInt (z : Z)
| PBytes (b : bytes)
| PStr (utf8 : bytes)
| PList (l : list pyval)
| PDict (kv : list (pyval * pyval)).

(** The exceptions the modelled code raises.  [PacketFormatError] is the
    class of [packetbase.py]; [DispatchFormatError] is the distinct class
    [dispatcher.PacketFormatError] (the one [client.py] imports). *)
Inductive exn : Type :=
| DecodeError
| EncodeError
| ValueError
| TypeError
| KeyError
| AttributeError
| UnboundLocalError
| UnicodeDecodeError
| PacketFormatError
| UnknownPacketError
| DispatchFormatError
| CommandTimeout
| CommandError
| CommandFail_invalid                      (** CommandFail('invalid response') *)
| CommandFail_status (status msg : pyval)   (** CommandFail("{}; {}".format(status, msg)) *)
| NoIdentity
| M2MAuthFailed (message : pyval)
| HandlerException (code : nat).           (** any other exception raised by a handler body *)

Inductive outcome (A : Type) : Type :=
| Ret (a : A)
| Raise (e : exn)
| Diverge.
Arguments Ret {A} a.
Arguments Raise {A} e.
Arguments Diverge {A}.

Definition obind {A B} (m : outcome A) (k : A -> outcome B) : outcome B :=
  match m with
  | Ret a => k a
  | Raise e => Raise e
  | Diverge => Diverge
  end.

Notation "'let*' x := m 'in' k" := (obind m (fun x => k))
  (at level 200, x name, m at level 100, right associativity).

(** ** Byte helpers *)

Fixpoint bytes_eqb (a b : bytes) : bool :=
  match a, b with
  | [], [] => true
  | x :: a', y :: b' => Byte.eqb x y && bytes_eqb a' b'
  | _, _ => false
  end.

Definition is_digit_byte (c : byte) : bool :=
  (48 <=? Byte.to_nat c)%nat && (Byte.to_nat c <=? 57)%nat.

(** [bytes.isdigit()]: non-empty and every byte an ASCII digit *)
Definition bytes_isdigit (b : bytes) : bool :=
  match b with
  | [] => false
  | _ => forallb is_digit_byte b
  end.

Definition digit_value (c : byte) : Z := Z.of_nat (Byte.to_nat c) - 48.

(** [io.BytesIO(data).read(n)] on the remaining stream [s]: at most [n]
    bytes, all of them when [n] is negative. *)
Definition read (n : Z) (s : bytes) : bytes * bytes :=
  if n <? 0 then (s, [])
  else (firstn (Z.to_nat n) s, skipn (Z.to_nat n) s).

(** Python's [int(b)] on a bytes object, base 10: surrounding ASCII
    whitespace, an optional sign, then digits where single underscores may
    separate digits.  [None] is the [ValueError] case. *)
Definition is_space_byte (c : byte) : bool :=
  let n := Byte.to_nat c in
  ((9 <=? n) && (n <=? 13))%nat || (n =? 32)%nat.

Fixpoint drop_spaces (b : bytes) : bytes :=
  match b with
  | c :: r => if is_space_byte c then drop_spaces r else b
  | [] => []
  end.

Definition strip_spaces (b : bytes) : bytes :=
  rev (drop_spaces (rev (drop_spaces b))).

Fixpoint int_body (acc : Z) (after_digit : bool) (b : bytes) : option Z :=
  match b with
  | [] => if after_digit then Some acc else None
  | c :: r =>
      if is_digit_byte c then int_body (acc * 10 + digit_value c) true r
      else if Byte.eqb c "_"%byte && after_digit then int_body acc false r
      else None
  end.

Definition py_int (b : bytes) : option Z :=
  match strip_spaces b with
  | c :: r =>
      if Byte.eqb c "-"%byte then option_map Z.opp (int_body 0 false r)
      else if Byte.eqb c "+"%byte then int_body 0 false r
      else int_body 0 false (c :: r)
  | [] => None
  end.

(** [str(n)] for an integer, as ASCII bytes *)
Definition digit_byte (d : Z) : byte :=
  match Byte.of_nat (Z.to_nat (d + 48)) with Some c => c | None => "0"%byte end.

Fixpoint nat_digits_rev (fuel : nat) (n : Z) : bytes :=
  match fuel with
  | O => []
  | S f =>
      if n <? 10 then [digit_byte n]
      else digit_byte (n mod 10) :: nat_digits_rev f (n / 10)
  end.

Definition str_of_nonneg (n : Z) : bytes :=
  rev (nat_digits_rev (S (Z.to_nat (Z.log2 n))) n).

Definition str_of_Z (n : Z) : bytes :=
  if n <? 0 then "-"%byte :: str_of_nonneg (- n) else str_of_nonneg n.

(** ** Python dicts (insertion-ordered association lists) *)

Definition hashable (v : pyval) : bool :=
  match v with
  | PList _ | PDict _ => false
  | _ => true
  end.

(** [==] between hashable values *)
Definition key_eqb (a b : pyval) : bool :=
  match a, b with
  | PNone, PNone => true
  | PInt x, PInt y => Z.eqb x y
  | PBytes x, PBytes y => bytes_eqb x y
  | PStr x, PStr y => bytes_eqb x y
  | _, _ => false
  end.

Fixpoint dict_lookup (kv : list (pyval * pyval)) (k : pyval) : option pyval :=
  match kv with
  | [] => None
  | (k', v) :: r => if key_eqb k' k then Some v else dict_lookup r k
  end.

(** [d[k] = v]: an existing key keeps its place, a new one goes last *)
Fixpoint dict_set (kv : list (pyval * pyval)) (k v : pyval) : list (pyval * pyval) :=
  match kv with
  | [] => [(k, v)]
  | (k', v') :: r => if key_eqb k' k then (k', v) :: r else (k', v') :: dict_set r k v
  end.

(** [dict(pairs)] *)
Fixpoint dict_of_pairs_aux (acc : list (pyval * pyval)) (pairs : list (pyval * pyval))
  : outcome pyval :=
  match pairs with
  | [] => Ret (PDict acc)
  | (k, v) :: r =>
      if hashable k then dict_of_pairs_aux (dict_set acc k v) r else Raise TypeError
  end.

Definition dict_of_pairs (pairs : list (pyval * pyval)) : outcome pyval :=
  dict_of_pairs_aux [] pairs.

(** [d.get(k, default)] *)
Definition dict_get (kv : list (pyval * pyval)) (k default : pyval) : pyval :=
  match dict_lookup kv k with Some v => v | None => default end.

(** ** bencode.py: [_decode] and [decode]

    [_decode] reads from a [BytesIO] stream; the stream is threaded through
    as the bytes not yet read.  Each loop iteration and each recursive call
    consumes one unit of fuel. *)

(** the [while 1] loop of the [b'i'] branch and [int(number_bytes)] *)
Fixpoint decode_int_loop (fuel : nat) (number_bytes : bytes) (s : bytes)
  : outcome (pyval * bytes) :=
  match fuel with
  | O => Diverge
  | S f =>
      let (c, s') := read 1 s in
      if negb (bytes_isdigit c) then
        if negb (bytes_eqb c (bs "e")) then Raise DecodeError
        else match py_int number_bytes with
             | Some number => Ret (PInt number, s')
             | None => Raise ValueError
             end
      else decode_int_loop f (number_bytes ++ c) s'
  end.

(** the [while 1] loop of the byte-string branch, [int(size_bytes)] and
    [read(size)] *)
Fixpoint decode_size_loop (fuel : nat) (size_bytes : bytes) (s : bytes)
  : outcome (pyval * bytes) :=
  match fuel with
  | O => Diverge
  | S f =>
      let (c, s') := read 1 s in
      if bytes_eqb c (bs ":") then
        match py_int size_bytes with
        | Some size => let (b, s'') := read size s' in Ret (PBytes b, s'')
        | None => Raise ValueError
        end
      else decode_size_loop f (size_bytes ++ c) s'
  end.

Fixpoint _decode (fuel : nat) (s : bytes) : outcome (pyval * bytes) :=
  match fuel with
  | O => Diverge
  | S f =>
      let (obj_type, s1) := read 1 s in
      if bytes_eqb obj_type (bs "e") then Ret (PNone, s1)
      else if bytes_eqb obj_type (bs "i") then decode_int_loop f [] s1
      else if bytes_eqb obj_type (bs "l") then
        (fix list_loop (g : nat) (l : list pyval) (st : bytes) : outcome (pyval * bytes) :=
           match g with
           | O => Diverge
           | S g' =>
               match _decode f st with
               | Ret (PNone, st') => Ret (PList l, st')
               | Ret (i, st') => list_loop g' (l ++ [i]) st'
               | Raise e => Raise e
               | Diverge => Diverge
               end
           end) f [] s1
      else if bytes_eqb obj_type (bs "d") then
        (fix dict_loop (g : nat) (kv : list (pyval * pyval)) (st : bytes)
           : outcome (pyval * bytes) :=
           match g with
           | O => Diverge
           | S g' =>
               match _decode f st with
               | Ret (PNone, st') => let* d := dict_of_pairs kv in Ret (d, st')
               | Ret (k, st') =>
                   match _decode f st' with
                   | Ret (v, st'') => dict_loop g' (kv ++ [(k, v)]) st''
                   | Raise e => Raise e
                   | Diverge => Diverge
                   end
               | Raise e => Raise e
               | Diverge => Diverge
               end
           end) f [] s1
      else decode_size_loop f obj_type s1
  end.

(** [decode(data)]: [_decode(io.BytesIO(data).read)] *)
Definition decode (fuel : nat) (data : bytes) : outcome pyval :=
  let* r := _decode fuel data in Ret (fst r).

(** ** bencode.py: [encode] *)

Definition encode_bytes (b : bytes) : bytes :=
  str_of_Z (Z.of_nat (List.length b)) ++ bs ":" ++ b.

Fixpoint bytes_leb (a b : bytes) : bool :=
  match a, b with
  | [], _ => true
  | _ :: _, [] => false
  | x :: a', y :: b' =>
      if (Byte.to_nat x <? Byte.to_nat y)%nat then true
      else if Byte.eqb x y then bytes_leb a' b' else false
  end.

(** [<=] between two keys of one kind (bytes, text or integers); UTF-8
    byte order is code point order *)
Definition key_leb (a b : pyval) : bool :=
  match a, b with
  | PBytes x, PBytes y => bytes_leb x y
  | PStr x, PStr y => bytes_leb x y
  | PInt x, PInt y => Z.leb x y
  | _, _ => true
  end.

Definition is_bytes (v : pyval) : bool := match v with PBytes _ => true | _ => false end.
Definition is_str (v : pyval) : bool := match v with PStr _ => true | _ => false end.
Definition is_int (v : pyval) : bool := match v with PInt _ => true | _ => false end.

Fixpoint insert_item {A} (x : pyval * A) (l : list (pyval * A)) : list (pyval * A) :=
  match l with
  | [] => [x]
  | y :: r => if key_leb (fst x) (fst y) then x :: y :: r else y :: insert_item x r
  end.

(** [sorted(obj.keys())], carrying each key's item along: two or more keys
    of different kinds (or of a kind without an order) raise [TypeError] *)
Definition sorted_items {A} (items : list (pyval * A)) : outcome (list (pyval * A)) :=
  match items with
  | [] | [_] => Ret items
  | _ =>
      let ks := map fst items in
      if forallb is_bytes ks || forallb is_str ks || forallb is_int ks
      then Ret (fold_right insert_item [] items)
      else Raise TypeError
  end.

(** the loop [for k in keys: ...] of the dict branch, over the sorted keys
    paired with the encoding of [obj[k]] *)
Fixpoint encode_items (items : list (pyval * outcome bytes)) : outcome bytes :=
  match items with
  | [] => Ret []
  | (k, ov) :: r =>
      match k with
      | PBytes kb =>
          let* vb := ov in
          let* rest := encode_items r in
          Ret (encode_bytes kb ++ vb ++ rest)
      | _ => Raise EncodeError
      end
  end.

(** [add_encode]; the values of a dict are encoded before the keys are
    sorted, which gives the same outcome as encoding [obj[k]] in the loop
    since encoding has no effect besides its output *)
Fixpoint add_encode (v : pyval) : outcome bytes :=
  match v with
  | PBytes b => Ret (encode_bytes b)
  | PStr s => Ret (encode_bytes s)
  | PInt n => Ret (bs "i" ++ str_of_Z n ++ bs "e")
  | PList l =>
      let* body :=
        (fix items (l : list pyval) : outcome bytes :=
           match l with
           | [] => Ret []
           | x :: r => let* a := add_encode x in let* b := items r in Ret (a ++ b)
           end) l in
      Ret (bs "l" ++ body ++ bs "e")
  | PDict kv =>
      let encoded :=
        (fix enc (kv : list (pyval * pyval)) : list (pyval * outcome bytes) :=
           match kv with
           | [] => []
           | (k, x) :: r => (k, add_encode x) :: enc r
           end) kv in
      let* items := sorted_items encoded in
      let* body := encode_items items in
      Ret (bs "d" ++ body ++ bs "e")
  | PNone => Raise EncodeError
  end.

Definition encode (v : pyval) : outcome bytes := add_encode v.






(** ** packets.py: packet types and packet classes *)

Definition PacketType : list (string * Z) :=
  [("null", 0); ("request_join", 1); ("request_identify", 2); ("welcome", 3);
   ("log", 4); ("request_send", 5); ("route", 6); ("ping", 7); ("pong", 8);
   ("set_identity", 9); ("request_open", 10); ("request_close", 11);
   ("request_close_all", 12); ("keep_alive", 13); ("notify_open", 14);
   ("request_login", 15); ("instruction", 16); ("notify_login_success", 17);
   ("notify_login_fail", 18); ("notify_close", 19); ("request_leave", 20);
   ("route_control", 21); ("request_send_control", 22); ("notify_name", 23);
   ("response", 100); ("command_add_route", 101);
   ("command_send_instruction", 102); ("command_log", 103);
   ("command_broadcast_log", 104); ("command_set_name", 106);
   ("command_check_nodes", 107); ("command_get_identities", 108);
   ("command_set_auth", 109); ("command_set_meta", 110);
   ("command_get_meta", 111)]%string.

(** The registered subclasses of [M2MPacket] *)
Inductive packet_class : Type :=
| Null | RequestJoin | RequestIdentify | Welcome | Log | KeepAlive
| RequestSend | NotifyName | Route | RouteControl | RequestSendControl
| Ping | Pong | SetIdentity | NotifyOpen | RequestLogin | NotifyLoginSuccess
| NotifyLoginFail | NotifyClose | RequestClose | RequestLeave | Instruction
| CommandResponse | CommandAddRoute | CommandSendInstruction | CommandLog
| CommandBroadcastLog | CommandSetName | CommandCheckNodes
| CommandGetIdentities | CommandSetAuth | CommandSetMeta | CommandGetMeta.

(** the class attribute [type] *)
Definition cls_type (c : packet_class) : Z :=
  match c with
  | Null => 0 | RequestJoin => 1 | RequestIdentify => 2 | Welcome => 3
  | Log => 4 | KeepAlive => 13 | RequestSend => 5 | NotifyName => 23
  | Route => 6 | RouteControl => 21 | RequestSendControl => 22 | Ping => 7
  | Pong => 8 | SetIdentity => 9 | NotifyOpen => 14 | RequestLogin => 15
  | NotifyLoginSuccess => 17 | NotifyLoginFail => 18 | NotifyClose => 19
  | RequestClose => 11 | RequestLeave => 20 | Instruction => 16
  | CommandResponse => 100 | CommandAddRoute => 101
  | CommandSendInstruction => 102 | CommandLog => 103
  | CommandBroadcastLog => 104 | CommandSetName => 106
  | CommandCheckNodes => 107 | CommandGetIdentities => 108
  | CommandSetAuth => 109 | CommandSetMeta => 110 | CommandGetMeta => 111
  end.

Inductive pytype : Type := TBytes | TInt | TDict | TList.

Definition isinstance (v : pyval) (t : pytype) : bool :=
  match t, v with
  | TBytes, PBytes _ | TInt, PInt _ | TDict, PDict _ | TList, PList _ => true
  | _, _ => false
  end.

(** the class attribute [attributes] *)
Definition attributes (c : packet_class) : list (string * pytype) :=
  match c with
  | Null | RequestJoin | Welcome | KeepAlive | RequestLeave => []
  | RequestIdentify => [("uuid", TBytes)]
  | Log => [("text", TBytes)]
  | RequestSend | Route | RouteControl | RequestSendControl =>
      [("port", TInt); ("data", TBytes)]
  | NotifyName => [("name", TBytes)]
  | Ping | Pong => [("data", TBytes)]
  | SetIdentity => [("identity", TBytes)]
  | NotifyOpen | NotifyClose | RequestClose => [("port", TInt)]
  | RequestLogin => [("username", TBytes); ("password", TBytes)]
  | NotifyLoginSuccess => [("user", TBytes)]
  | NotifyLoginFail => [("message", TBytes)]
  | Instruction => [("sender", TBytes); ("data", TDict)]
  | CommandResponse => [("command_id", TInt); ("result", TDict)]
  | CommandAddRoute =>
      [("command_id", TInt); ("node1", TBytes); ("port1", TInt);
       ("node2", TBytes); ("port2", TInt); ("requester", TBytes);
       ("forwarded", TInt)]
  | CommandSendInstruction => [("command_id", TInt); ("node", TBytes); ("data", TDict)]
  | CommandLog => [("command_id", TInt); ("node", TBytes); ("text", TBytes)]
  | CommandBroadcastLog => [("command_id", TInt); ("text", TBytes)]
  | CommandSetName => [("command_id", TInt); ("node", TBytes); ("name", TBytes)]
  | CommandCheckNodes | CommandGetIdentities => [("command_id", TInt); ("nodes", TList)]
  | CommandSetAuth => [("command_id", TInt); ("expire", TInt); ("value", TBytes)]
  | CommandSetMeta =>
      [("command_id", TInt); ("requester", TBytes); ("node", TBytes);
       ("key", TBytes); ("value", TBytes)]
  | CommandGetMeta => [("command_id", TInt); ("requester", TBytes); ("node", TBytes)]
  end%string.

(** [RequestSend] and [Route] override [__repr__] with one that reads
    [self.port] and [self.data] *)
Definition repr_reads_attributes (c : packet_class) : bool :=
  match c with RequestSend | Route => true | _ => false end.

(** [PacketBase.registry], filled by [PacketMeta] in class definition order *)
Definition registry : list packet_class :=
  [Null; RequestJoin; RequestIdentify; Welcome; Log; KeepAlive; RequestSend;
   NotifyName; Route; RouteControl; RequestSendControl; Ping; Pong;
   SetIdentity; NotifyOpen; RequestLogin; NotifyLoginSuccess; NotifyLoginFail;
   NotifyClose; RequestClose; RequestLeave; Instruction; CommandResponse;
   CommandAddRoute; CommandSendInstruction; CommandLog; CommandBroadcastLog;
   CommandSetName; CommandCheckNodes; CommandGetIdentities; CommandSetAuth;
   CommandSetMeta; CommandGetMeta].

(** [registry.get(packet_type)] *)
Definition registry_get (t : Z) : option packet_class :=
  find (fun c => cls_type c =? t) registry.

(** ** packetbase.py: packet instances *)

Fixpoint str_lookup {A} (l : list (string * A)) (k : string) : option A :=
  match l with
  | [] => None
  | (k', v) :: r => if String.eqb k' k then Some v else str_lookup r k
  end.

Fixpoint str_set {A} (l : list (string * A)) (k : string) (v : A) : list (string * A) :=
  match l with
  | [] => [(k, v)]
  | (k', v') :: r => if String.eqb k' k then (k', v) :: r else (k', v') :: str_set r k v
  end.

(** An instance: its class and its [__dict__] *)
Record packet : Type := mk_packet {
  pk_class : packet_class;
  pk_params : list (string * pyval)
}.

(** [{name: arg for arg, (name, _type) in zip(args, self.attributes)}] *)
Fixpoint zip_params (args : list pyval) (attrs : list (string * pytype))
  : list (string * pyval) :=
  match args, attrs with
  | a :: args', (name, _) :: attrs' => (name, a) :: zip_params args' attrs'
  | _, _ => []
  end.

(** A failed check formats the instance with [{!r}] / [{}]: the default
    [__repr__] is safe, the overriding ones read attributes that are not
    set yet and raise [AttributeError] first. *)
Definition construct_error (c : packet_class) : outcome (list (string * pyval)) :=
  if repr_reads_attributes c then Raise AttributeError else Raise PacketFormatError.

(** the [for name, _type in self.attributes] loop of [__init__] *)
Fixpoint check_attributes (c : packet_class) (attrs : list (string * pytype))
  (params : list (string * pyval)) : outcome (list (string * pyval)) :=
  match attrs with
  | [] => Ret params
  | (name, t) :: r =>
      match str_lookup params name with
      | None => construct_error c
      | Some value =>
          let (value', params') :=
            match value with
            | PStr s => (PBytes s, str_set params name (PBytes s))
            | _ => (value, params)
            end in
          if isinstance value' t then check_attributes c r params'
          else construct_error c
      end
  end.

(** [PacketBase.__init__] on positional [args] and keyword [kwargs].  A keyword argument named like
    a class-level name ([type], [attributes], [as_bytes]) would shadow it on
    the instance; such keywords are not modelled. *)
Definition construct (c : packet_class) (args : list pyval)
  (kwargs : list (string * pyval)) : outcome packet :=
  let params := fold_left (fun acc kv => str_set acc (fst kv) (snd kv)) kwargs
                  (zip_params args (attributes c)) in
  let* params' := check_attributes c (attributes c) params in
  Ret (mk_packet c params').

Definition getattr (p : packet) (name : string) : outcome pyval :=
  match str_lookup (pk_params p) name with
  | Some v => Ret v
  | None => Raise AttributeError
  end.

Fixpoint getattrs (p : packet) (attrs : list (string * pytype)) : outcome (list pyval) :=
  match attrs with
  | [] => Ret []
  | (name, _) :: r => let* v := getattr p name in let* vs := getattrs p r in Ret (v :: vs)
  end.

(** the [kwargs] property *)
Fixpoint packet_kwargs_aux (p : packet) (attrs : list (string * pytype))
  : outcome (list (string * pyval)) :=
  match attrs with
  | [] => Ret []
  | (name, _) :: r =>
      let* v := getattr p name in
      let* kw := packet_kwargs_aux p r in
      Ret ((name, v) :: kw)
  end.

Definition packet_kwargs (p : packet) : outcome (list (string * pyval)) :=
  packet_kwargs_aux p (attributes (pk_class p)).

(** ** packetbase.py / packets.py: serialisation *)

(** [b'%i' % v] *)
Definition percent_i (v : pyval) : outcome bytes :=
  match v with PInt z => Ret (str_of_Z z) | _ => Raise TypeError end.

(** [b'%s' % v] *)
Definition percent_s (v : pyval) : outcome bytes :=
  match v with PBytes b => Ret b | _ => Raise TypeError end.

Definition is_utf8_continuation (c : byte) : bool :=
  ((128 <=? Byte.to_nat c) && (Byte.to_nat c <=? 191))%nat.

(** [len(v)] *)
Definition py_len (v : pyval) : outcome pyval :=
  match v with
  | PBytes b => Ret (PInt (Z.of_nat (List.length b)))
  | PStr s => Ret (PInt (Z.of_nat (List.length (filter (fun c => negb (is_utf8_continuation c)) s))))
  | PList l => Ret (PInt (Z.of_nat (List.length l)))
  | PDict kv => Ret (PInt (Z.of_nat (List.length kv)))
  | _ => Raise TypeError
  end.

(** [PacketBase.as_bytes]: [bencode.encode([int(self.type)] + [getattr(self,
    name) for name, _type in self.attributes])] *)
Definition generic_as_bytes (p : packet) : outcome bytes :=
  let* vals := getattrs p (attributes (pk_class p)) in
  encode (PList (PInt (cls_type (pk_class p)) :: vals)).

(** [b'li<t>e%i:%se' % (len(x), x)] *)
Definition shortcut_len_bytes (prefix : bytes) (x : pyval) : outcome bytes :=
  let* n := py_len x in
  let* a := percent_i n in
  let* b := percent_s x in
  Ret (prefix ++ a ++ bs ":" ++ b ++ bs "e").

(** [as_bytes] of an instance: the class attribute of [Null] and [Welcome],
    the overriding properties of [Log], [Route], [Ping], [SetIdentity],
    [NotifyOpen] and [NotifyClose], and [PacketBase.as_bytes] otherwise *)
Definition as_bytes (p : packet) : outcome bytes :=
  match pk_class p with
  | Null => Ret (bs "li0ee")
  | Welcome => Ret (bs "li3ee")
  | Log => let* text := getattr p "text" in shortcut_len_bytes (bs "li4e") text
  | Route =>
      let* port := getattr p "port" in
      let* data := getattr p "data" in
      let* n := py_len data in
      let* a := percent_i port in
      let* b := percent_i n in
      let* d := percent_s data in
      Ret (bs "li6ei" ++ a ++ bs "e" ++ b ++ bs ":" ++ d ++ bs "e")
  | Ping => let* data := getattr p "data" in shortcut_len_bytes (bs "li7e") data
  | SetIdentity =>
      let* identity := getattr p "identity" in shortcut_len_bytes (bs "li9e") identity
  | NotifyOpen =>
      let* port := getattr p "port" in
      let* a := percent_i port in
      Ret (bs "li14ei" ++ a ++ bs "ee")
  | NotifyClose =>
      let* port := getattr p "port" in
      let* a := percent_i port in
      Ret (bs "li19ei" ++ a ++ bs "ee")
  | _ => generic_as_bytes p
  end.

(** the classes whose [as_bytes] is a precomputed value or a shortcut *)
Definition has_shortcut (c : packet_class) : bool :=
  match c with
  | Null | Welcome | Log | Route | Ping | SetIdentity | NotifyOpen | NotifyClose => true
  | _ => false
  end.

Definition starts_with (prefix b : bytes) : bool :=
  bytes_eqb (firstn (List.length prefix) b) prefix.

(** [b.partition(b'e')] *)
Fixpoint partition_e (b : bytes) : bytes * bytes * bytes :=
  match b with
  | [] => ([], [], [])
  | c :: r =>
      if Byte.eqb c "e"%byte then ([], [c], r)
      else let '(x, t, y) := partition_e r in (c :: x, t, y)
  end.

(** [M2MPacket.peek_type]; [Ret None] is the implicit [return None] *)
Definition peek_type (packet_bytes : bytes) : outcome (option Z) :=
  if starts_with (bs "li") packet_bytes then
    let '(packet_type, terminator, _remainder) :=
      partition_e (firstn 6 (skipn 2 packet_bytes)) in
    if negb (match terminator with [] => false | _ => true end) then Ret None
    else if bytes_isdigit packet_type then
      match py_int packet_type with
      | Some t => Ret (Some t)
      | None => Raise ValueError
      end
    else Ret None
  else Ret None.

(** [PacketBase.from_bytes] *)
Definition from_bytes (fuel : nat) (packet_bytes : bytes) : outcome packet :=
  if negb (starts_with (bs "l") packet_bytes) then Raise PacketFormatError
  else
    match decode fuel packet_bytes with
    | Raise DecodeError => Raise PacketFormatError
    | Raise e => Raise e
    | Diverge => Diverge
    | Ret packet_data =>
        match packet_data with
        | PList [] => Raise ValueError  (* packet_type, *packet_body = [] *)
        | PList (packet_type :: packet_body) =>
            match packet_type with
            | PInt t =>
                match registry_get t with
                | None => Raise UnknownPacketError
                | Some c => construct c packet_body []
                end
            | _ => Raise PacketFormatError
            end
        | _ => Raise TypeError  (* not reached: the input starts with b'l' *)
        end
    end.

(** [M2MPacket.process_packet_type] on a packet name *)
Definition process_packet_type (name : string) : outcome Z :=
  match str_lookup PacketType name with
  | Some t => Ret t
  | None => Raise KeyError
  end.

(** [M2MPacket.create(packet_type, *args, **kwargs)] with a packet name *)
Definition create (name : string) (args : list pyval) (kwargs : list (string * pyval))
  : outcome packet :=
  let* t := process_packet_type name in
  match registry_get t with
  | None => Raise ValueError
  | Some c => construct c args kwargs
  end.




(** ** dispatcher.py *)

(** what the code logs or does, in order *)
Inductive event : Type :=
| EvWarning (what : string)
| EvError (what : string)
| EvException (what : string)
| EvInfo (what : string)
| EvCall (packet_type : Z).

Fixpoint Z_lookup {A} (l : list (Z * A)) (k : Z) : option A :=
  match l with
  | [] => None
  | (k', v) :: r => if Z.eqb k' k then Some v else Z_lookup r k
  end.

Section Dispatcher.

(** the state of the object whose methods are the handlers *)
Variable S : Type.

(** An exposed method: its parameter annotations (coercions), in the
    order of [__annotations__], and its body, called with the packet's keyword arguments *)
Record handler : Type := mk_handler {
  h_annotations : list (string * (pyval -> outcome pyval));
  h_body : list (string * pyval) -> S -> outcome pyval * S
}.

(** [for name, param_callable in method.__annotations__.items():
       kwargs[name] = param_callable(kwargs[name])] *)
Fixpoint coerce_params (anns : list (string * (pyval -> outcome pyval)))
  (kwargs : list (string * pyval)) : outcome (list (string * pyval)) :=
  match anns with
  | [] => Ret kwargs
  | (name, param_callable) :: r =>
      match str_lookup kwargs name with
      | None => Raise KeyError
      | Some v => let* v' := param_callable v in coerce_params r (str_set kwargs name v')
      end
  end.

(** [Dispatcher.on_missing_handler]: log a warning, return [None] *)
Definition on_missing_handler (p : packet) (st : S) : outcome pyval * S * list event :=
  (Ret PNone, st, [EvWarning "no handler"%string]).

(** [Dispatcher.dispatch_packet] over the table [_packet_handlers] *)
Definition dispatch_packet (packet_handlers : list (Z * handler)) (p : packet) (st : S)
  : outcome pyval * S * list event :=
  let t := cls_type (pk_class p) in
  match Z_lookup packet_handlers t with
  | None => on_missing_handler p st
  | Some method =>
      match packet_kwargs p with
      | Raise e => (Raise e, st, [])
      | Diverge => (Diverge, st, [])
      | Ret kwargs =>
          match coerce_params (h_annotations method) kwargs with
          | Raise _ => (Raise DispatchFormatError, st,
                        [EvWarning "packet failed to validate"%string])
          | Diverge => (Diverge, st, [])
          | Ret kwargs' =>
              let (r, st') := h_body method kwargs' st in
              match r with
              | Raise e => (Raise e, st', [EvCall t; EvException "error calling handler"%string])
              | _ => (r, st', [EvCall t])
              end
          end
      end
  end.

End Dispatcher.

Arguments mk_handler {S} h_annotations h_body.
Arguments h_annotations {S} h.
Arguments h_body {S} h.
Arguments coerce_params : clear implicits.
Arguments dispatch_packet {S} packet_handlers p st.
Arguments on_missing_handler {S} p st.

(** ** client.py *)

Definition in_range (c : byte) (lo hi : nat) : bool :=
  ((lo <=? Byte.to_nat c) && (Byte.to_nat c <=? hi))%nat.

(** strict UTF-8 well-formedness, as Python's decoder checks it *)
Fixpoint utf8_valid (b : bytes) : bool :=
  match b with
  | [] => true
  | c :: r =>
      if in_range c 0 127 then utf8_valid r
      else if in_range c 194 223 then
        match r with c1 :: r' => in_range c1 128 191 && utf8_valid r' | _ => false end
      else if in_range c 224 239 then
        let lo := if in_range c 224 224 then 160%nat else 128%nat in
        let hi := if in_range c 237 237 then 159%nat else 191%nat in
        match r with
        | c1 :: c2 :: r' => in_range c1 lo hi && in_range c2 128 191 && utf8_valid r'
        | _ => false
        end
      else if in_range c 240 244 then
        let lo := if in_range c 240 240 then 144%nat else 128%nat in
        let hi := if in_range c 244 244 then 143%nat else 191%nat in
        match r with
        | c1 :: c2 :: c3 :: r' =>
            in_range c1 lo hi && in_range c2 128 191 && in_range c3 128 191 && utf8_valid r'
        | _ => false
        end
      else false
  end.

(** the annotation [bytes.decode] used as a coercion *)
Definition bytes_decode (v : pyval) : outcome pyval :=
  match v with
  | PBytes b => if utf8_valid b then Ret (PStr b) else Raise UnicodeDecodeError
  | _ => Raise TypeError
  end.

(** A [CommandResult]: [name], [_result], and whether [_event] is set *)
Record command_result : Type := mk_command_result {
  cr_name : string;
  cr_result : pyval;
  cr_event : bool
}.

(** The state of an [M2MClient].  [CommandResult] objects live in
    [cl_objects] (a reference is an index there), so that the entry of
    [command_events] and the handle returned to the caller are the same
    object. *)
Record client : Type := mk_client {
  cl_identity : pyval;                   (** _identity *)
  cl_identity_event : bool;              (** identity_event is set *)
  cl_command_id : Z;                     (** command_id *)
  cl_command_events : list (Z * nat);    (** command_events *)
  cl_objects : list command_result;
  cl_running : bool;                     (** ws.running *)
  cl_sent : list bytes;                  (** frames given to ws.send *)
  cl_log : list event
}.

Definition with_log (st : client) (evs : list event) : client :=
  mk_client (cl_identity st) (cl_identity_event st) (cl_command_id st)
    (cl_command_events st) (cl_objects st) (cl_running st) (cl_sent st)
    (cl_log st ++ evs).

Definition with_command_events (st : client) (ev : list (Z * nat)) : client :=
  mk_client (cl_identity st) (cl_identity_event st) (cl_command_id st)
    ev (cl_objects st) (cl_running st) (cl_sent st) (cl_log st).

Definition with_objects (st : client) (objs : list command_result) : client :=
  mk_client (cl_identity st) (cl_identity_event st) (cl_command_id st)
    (cl_command_events st) objs (cl_running st) (cl_sent st) (cl_log st).

Fixpoint replace_nth {A} (l : list A) (n : nat) (x : A) : list A :=
  match l, n with
  | [], _ => []
  | _ :: r, O => x :: r
  | y :: r, S n' => y :: replace_nth r n' x
  end.

(** [CommandResult.set(result)] on the object [ref] *)
Definition command_result_set (st : client) (ref : nat) (result : pyval) : client :=
  match nth_error (cl_objects st) ref with
  | Some cr => with_objects st (replace_nth (cl_objects st) ref
                                  (mk_command_result (cr_name cr) result true))
  | None => st
  end.

(** [CommandResult.get(timeout)], evaluated on the object as it is when
    [self._event.wait(timeout)] returns: [cr_event] then tells whether the
    response was set before the timeout. *)
Definition command_result_get (cr : command_result) : outcome pyval :=
  if negb (cr_event cr) then Raise CommandTimeout
  else
    match cr_result cr with
    | PNone => Raise CommandError
    | PDict kv =>
        let status := dict_get kv (PStr (bs "status")) (PStr (bs "fail")) in
        let is_ok := match status with PStr s => bytes_eqb s (bs "ok") | _ => false end in
        if negb is_ok then
          let msg := dict_get kv (PStr (bs "msg")) (PStr []) in
          Raise (CommandFail_status status msg)
        else Ret (PDict kv)
    | _ => Raise CommandFail_invalid
    end.

(** [self.command_events.pop(command_id)]: the reference and the table
    without the entry, [None] for the [KeyError] case *)
Fixpoint pop_command {A} (l : list (Z * A)) (k : Z) : option (A * list (Z * A)) :=
  match l with
  | [] => None
  | (k', v) :: r =>
      if Z.eqb k' k then Some (v, r)
      else match pop_command r k with
           | Some (x, r') => Some (x, (k', v) :: r')
           | None => None
           end
  end.

(** calling a method with parameters [params] on the keyword arguments
    [kwargs]: an unexpected or a missing keyword raises [TypeError] *)
Definition bind_args (params : list string) (kwargs : list (string * pyval))
  : outcome (list pyval) :=
  if forallb (fun kv => existsb (String.eqb (fst kv)) params) kwargs then
    (fix go (ps : list string) : outcome (list pyval) :=
       match ps with
       | [] => Ret []
       | p :: r =>
           match str_lookup kwargs p with
           | Some v => let* vs := go r in Ret (v :: vs)
           | None => Raise TypeError
           end
       end) params
  else Raise TypeError.

(** [M2MClient.on_command]: in the [KeyError] branch, [command_result] is
    not bound, so [command_result.set(None)] raises [UnboundLocalError] *)
Definition on_command (kwargs : list (string * pyval)) (st : client) : outcome pyval * client :=
  match bind_args ["command_id"; "result"]%string kwargs with
  | Ret [command_id; result] =>
      let popped :=
        match command_id with
        | PInt z => Ret (pop_command (cl_command_events st) z)
        | PList _ | PDict _ => Raise TypeError   (* unhashable key *)
        | _ => Ret None                          (* equal to no integer key *)
        end in
      match popped with
      | Ret (Some (ref, events')) =>
          (Ret PNone, command_result_set (with_command_events st events') ref result)
      | Ret None =>
          (Raise UnboundLocalError,
           with_log st [EvError "received a response to an unknown event"%string])
      | Raise e => (Raise e, st)
      | Diverge => (Diverge, st)
      end
  | Ret _ => (Raise TypeError, st)
  | Raise e => (Raise e, st)
  | Diverge => (Diverge, st)
  end.

(** [M2MClient.handle_set_identitiy] *)
Definition handle_set_identitiy (kwargs : list (string * pyval)) (st : client)
  : outcome pyval * client :=
  match bind_args ["identity"]%string kwargs with
  | Ret [identity] =>
      (Ret PNone,
       mk_client identity true (cl_command_id st) (cl_command_events st)
         (cl_objects st) (cl_running st) (cl_sent st) (cl_log st))
  | Ret _ => (Raise TypeError, st)
  | Raise e => (Raise e, st)
  | Diverge => (Diverge, st)
  end.

(** [M2MClient.handle_welcome] *)
Definition handle_welcome (kwargs : list (string * pyval)) (st : client)
  : outcome pyval * client :=
  match bind_args [] kwargs with
  | Ret _ => (Ret PNone, st)
  | Raise e => (Raise e, st)
  | Diverge => (Diverge, st)
  end.

(** [M2MClient.handle_notify_login_success] *)
Definition handle_notify_login_success (kwargs : list (string * pyval)) (st : client)
  : outcome pyval * client :=
  match bind_args ["user"]%string kwargs with
  | Ret _ => (Ret PNone, st)
  | Raise e => (Raise e, st)
  | Diverge => (Diverge, st)
  end.

(** [M2MClient.handle_notify_login_fail] *)
Definition handle_notify_login_fail (kwargs : list (string * pyval)) (st : client)
  : outcome pyval * client :=
  match bind_args ["message"]%string kwargs with
  | Ret [message] => (Raise (M2MAuthFailed message), st)
  | Ret _ => (Raise TypeError, st)
  | Raise e => (Raise e, st)
  | Diverge => (Diverge, st)
  end.

(** [M2MClient.handle_log] *)
Definition handle_log (kwargs : list (string * pyval)) (st : client)
  : outcome pyval * client :=
  match bind_args ["text"]%string kwargs with
  | Ret _ => (Ret PNone, with_log st [EvInfo "[log]"%string])
  | Raise e => (Raise e, st)
  | Diverge => (Diverge, st)
  end.

(** the table [Dispatcher._init_dispatcher] builds from the [@expose]d
    methods of [M2MClient] *)
Definition client_handlers : list (Z * handler client) :=
  [(3, mk_handler [] handle_welcome);
   (18, mk_handler [("message"%string, bytes_decode)] handle_notify_login_fail);
   (17, mk_handler [("user"%string, bytes_decode)] handle_notify_login_success);
   (4, mk_handler [("text"%string, bytes_decode)] handle_log);
   (9, mk_handler [] handle_set_identitiy);
   (100, mk_handler [] on_command)].

(** [WebSocketThread.on_binary] for a live client: only
    [dispatcher.PacketFormatError] is caught, which [from_bytes] never
    raises (it raises the class of [packetbase.py]) *)
Definition on_binary (fuel : nat) (data : bytes) (st : client) : outcome pyval * client :=
  match from_bytes fuel data with
  | Raise DispatchFormatError => (Ret PNone, with_log st [EvWarning "bad packet"%string])
  | Raise e => (Raise e, st)
  | Diverge => (Diverge, st)
  | Ret p =>
      let '(r, st', evs) := dispatch_packet client_handlers p st in
      (r, with_log st' evs)
  end.

(** [M2MClient.send] *)
Definition send (st : client) (name : string) (args : list pyval)
  (kwargs : list (string * pyval)) : outcome pyval * client :=
  match create name args kwargs with
  | Ret p =>
      if cl_running st then
        match as_bytes p with
        | Ret b =>
            (Ret PNone,
             mk_client (cl_identity st) (cl_identity_event st) (cl_command_id st)
               (cl_command_events st) (cl_objects st) (cl_running st)
               (cl_sent st ++ [b]) (cl_log st))
        | Raise e => (Raise e, st)
        | Diverge => (Diverge, st)
        end
      else (Ret PNone, with_log st [EvWarning "server gone"%string])
  | Raise e => (Raise e, st)
  | Diverge => (Diverge, st)
  end.

(** [M2MClient.command]: the reference of the new [CommandResult] *)
Definition command (st : client) (name : string) (args : list pyval)
  (kwargs : list (string * pyval)) : outcome nat * client :=
  let command_id := cl_command_id st + 1 in
  let ref := List.length (cl_objects st) in
  let st1 := mk_client (cl_identity st) (cl_identity_event st) command_id
               (cl_command_events st ++ [(command_id, ref)])
               (cl_objects st ++ [mk_command_result name PNone false])
               (cl_running st) (cl_sent st) (cl_log st) in
  let (r, st2) := send st1 name (PInt command_id :: args) kwargs in
  match r with
  | Ret _ => (Ret ref, st2)
  | Raise e => (Raise e, st2)
  | Diverge => (Diverge, st2)
  end.

(** [M2MClient.get_identity(timeout)], evaluated when the wait returns *)
Definition get_identity (st : client) : outcome pyval :=
  if cl_identity_event st then Ret (cl_identity st) else Raise NoIdentity.

(** [M2MClient.add_route] *)
Definition add_route (st : client) (node1 node2 : pyval) : outcome nat * client :=
  match get_identity st with
  | Ret identity =>
      command st "command_add_route"
        [] [("node1", node1); ("port1", PInt (-1)); ("node2", node2);
            ("port2", PInt (-1)); ("requester", identity); ("forwarded", PInt 0)]%string
  | Raise e => (Raise e, st)
  | Diverge => (Diverge, st)
  end.

(** a client whose websocket is running and that has no identity yet *)
Definition connected_client : client :=
  mk_client PNone false 0 [] [] true [] [].

(** ** Repeated calls of [decode]

    [decode] builds a new [BytesIO] over its argument on every call and
    keeps nothing between calls.  [decode_traced] also returns how many
    bytes the call read from its stream when it returns a value. *)
Definition decode_traced (fuel : nat) (data : bytes) : outcome pyval * option nat :=
  match _decode fuel data with
  | Ret (v, rest) => (Ret v, Some (List.length data - List.length rest)%nat)
  | Raise e => (Raise e, None)
  | Diverge => (Diverge, None)
  end.

(** a sequence of calls [decode(x)] for [x] in [xs] *)
Fixpoint decode_calls (fuel : nat) (xs : list bytes) : list (outcome pyval * option nat) :=
  match xs with
  | [] => []
  | x :: r => decode_traced fuel x :: decode_calls fuel r
  end.

(** The memoising decode the specification describes (section 4.1 and
    4.2), written from its words to be compared with [decode]: inputs
    shorter than 100 bytes are looked up in an LRU cache of fixed capacity
    keyed by the input bytes; a hit reads nothing and moves the entry to the
    most-recently-used position; a miss parses and inserts, evicting the
    least-recently-used entry when over capacity. *)
Record spec_lru : Type := mk_spec_lru {
  lru_capacity : nat;
  lru_entries : list (bytes * outcome pyval)   (** most recently used first *)
}.

Fixpoint lru_remove (k : bytes) (l : list (bytes * outcome pyval)) : list (bytes * outcome pyval) :=
  match l with
  | [] => []
  | (k', v) :: r => if bytes_eqb k' k then lru_remove k r else (k', v) :: lru_remove k r
  end.

Fixpoint lru_find (k : bytes) (l : list (bytes * outcome pyval)) : option (outcome pyval) :=
  match l with
  | [] => None
  | (k', v) :: r => if bytes_eqb k' k then Some v else lru_find k r
  end.

Definition spec_lru_get (c : spec_lru) (k : bytes) : option (outcome pyval) * spec_lru :=
  match lru_find k (lru_entries c) with
  | Some v => (Some v, mk_spec_lru (lru_capacity c) ((k, v) :: lru_remove k (lru_entries c)))
  | None => (None, c)
  end.

Definition spec_lru_put (c : spec_lru) (k : bytes) (v : outcome pyval) : spec_lru :=
  mk_spec_lru (lru_capacity c)
    (firstn (lru_capacity c) ((k, v) :: lru_remove k (lru_entries c))).

Definition spec_decode_memo (fuel : nat) (c : spec_lru) (data : bytes)
  : (outcome pyval * option nat) * spec_lru :=
  if (List.length data <? 100)%nat then
    match spec_lru_get c data with
    | (Some v, c') => ((v, Some 0%nat), c')
    | (None, c') =>
        let r := decode_traced fuel data in (r, spec_lru_put c' data (fst r))
    end
  else (decode_traced fuel data, c).

Fixpoint spec_decode_memo_calls (fuel : nat) (c : spec_lru) (xs : list bytes)
  : list (outcome pyval * option nat) :=
  match xs with
  | [] => []
  | x :: r =>
      let (res, c') := spec_decode_memo fuel c x in res :: spec_decode_memo_calls fuel c' r
  end.

(** the check of positional arguments against the declared
    attributes, as [__init__] applies it to [from_bytes]' packet body *)
Fixpoint args_conform (attrs : list (string * pytype)) (args : list pyval) : bool :=
  match attrs, args with
  | [], _ => true
  | (_, t) :: r, v :: args' =>
      isinstance (match v with PStr s => PBytes s | _ => v end) t && args_conform r args'
  | _ :: _, [] => false
  end.

(** ** bencode.py: values that survive a round trip *)

(** the integer a run of ASCII digits denotes, read from the left *)
Definition digits_value (acc : Z) (d : bytes) : Z :=
  fold_left (fun a c => a * 10 + digit_value c) d acc.

(** the value [decode] gives back for [v]: text comes back as its UTF-8 bytes *)
Fixpoint norm_value (v : pyval) : pyval :=
  match v with
  | PStr s => PBytes s
  | PList l => PList (map norm_value l)
  | PDict kv => PDict (map (fun '(k, x) => (k, norm_value x)) kv)
  | _ => v
  end.

(** the keys are in the order [sorted] puts them in *)
Fixpoint keys_sorted {A} (kv : list (pyval * A)) : bool :=
  match kv with
  | (k1, _) :: ((k2, _) :: _) as r => key_leb k1 k2 && keys_sorted r
  | _ => true
  end.

(** no key occurs twice *)
Fixpoint keys_distinct {A} (kv : list (pyval * A)) : bool :=
  match kv with
  | [] => true
  | (k, _) :: r => negb (existsb (fun kx => key_eqb k (fst kx)) r) && keys_distinct r
  end.

(** the values whose encoding decodes back: no [None], no negative integer,
    dicts keyed by bytes in sorted order without duplicates *)
Fixpoint rt_value (v : pyval) : bool :=
  match v with
  | PNone => false
  | PInt n => 0 <=? n
  | PBytes _ | PStr _ => true
  | PList l => forallb rt_value l
  | PDict kv =>
      forallb (fun '(k, x) => is_bytes k && rt_value x) kv && keys_sorted kv && keys_distinct kv
  end.

(** the number of nodes of a value *)
Fixpoint pv_size (v : pyval) : nat :=
  match v with
  | PList l => S (list_sum (map pv_size l))
  | PDict kv => S (list_sum (map (fun '(k, x) => (pv_size k + pv_size x)%nat) kv))
  | _ => 1
  end.

(** the inner loops of [add_encode] and [_decode], as named functions that
    are syntactically the nested fixpoints of those definitions *)
Definition add_encode_items : list pyval -> outcome bytes :=
  fix items (l : list pyval) : outcome bytes :=
    match l with
    | [] => Ret []
    | x :: r => let* a := add_encode x in let* b := items r in Ret (a ++ b)
    end.

Definition add_encode_values : list (pyval * pyval) -> list (pyval * outcome bytes) :=
  fix enc (kv : list (pyval * pyval)) : list (pyval * outcome bytes) :=
    match kv with
    | [] => []
    | (k, x) :: r => (k, add_encode x) :: enc r
    end.

Definition decode_list_loop (f : nat) : nat -> list pyval -> bytes -> outcome (pyval * bytes) :=
  fix list_loop (g : nat) (l : list pyval) (st : bytes) : outcome (pyval * bytes) :=
    match g with
    | O => Diverge
    | S g' =>
        match _decode f st with
        | Ret (PNone, st') => Ret (PList l, st')
        | Ret (i, st') => list_loop g' (l ++ [i]) st'
        | Raise e => Raise e
        | Diverge => Diverge
        end
    end.

Definition decode_dict_loop (f : nat)
  : nat -> list (pyval * pyval) -> bytes -> outcome (pyval * bytes) :=
  fix dict_loop (g : nat) (kv : list (pyval * pyval)) (st : bytes) : outcome (pyval * bytes) :=
    match g with
    | O => Diverge
    | S g' =>
        match _decode f st with
        | Ret (PNone, st') => let* d := dict_of_pairs kv in Ret (d, st')
        | Ret (k, st') =>
            match _decode f st' with
            | Ret (v, st'') => dict_loop g' (kv ++ [(k, v)]) st''
            | Raise e => Raise e
            | Diverge => Diverge
            end
        | Raise e => Raise e
        | Diverge => Diverge
        end
    end.

Definition norm_item (kx : pyval * pyval) : pyval * pyval :=
  let '(k, x) := kx in (k, norm_value x).

(** the exceptions the [bencode] decoder itself raises *)
Definition decode_exn (e : exn) : Prop := e = DecodeError \/ e = ValueError \/ e = TypeError.

(** ** client.py: the other methods of [M2MClient] *)

(** [M2MClient.on_startup]: [self.username] and [self.password] are passed in *)
Definition on_startup (username password : pyval) (st : client) : outcome pyval * client :=
  let (r, st1) := send st "request_join" [] [] in
  match r with
  | Ret _ => send st1 "request_login" [] [("username", username); ("password", password)]%string
  | Raise e => (Raise e, st1)
  | Diverge => (Diverge, st1)
  end.

(** [M2MClient.log]: [text.encode()] exists on text only *)
Definition log (st : client) (text : pyval) : outcome nat * client :=
  match text with
  | PStr s => command st "command_broadcast_log" [] [("text"%string, PBytes s)]
  | _ => (Raise AttributeError, st)
  end.

(** [M2MClient.send_instruction(node, **params)]: [params] is a dict keyed by
    the (text) keyword names *)
Definition send_instruction (st : client) (node : pyval) (params : list (string * pyval))
  : outcome nat * client :=
  command st "command_send_instruction" []
    [("node"%string, node);
     ("data"%string, PDict (map (fun kv => (PStr (bs (fst kv)), snd kv)) params))].

(** [M2MClient.name_node] *)
Definition name_node (st : client) (node name : pyval) : outcome nat * client :=
  command st "command_set_name" [] [("node", node); ("name", name)]%string.

(** [M2MClient.get_identities] *)
Definition get_identities (st : client) (nodes : pyval) : outcome nat * client :=
  command st "command_get_identities" [] [("nodes"%string, nodes)].

(** [M2MClient.set_meta] *)
Definition set_meta (st : client) (device_id key value : pyval) : outcome nat * client :=
  match get_identity st with
  | Ret identity =>
      command st "command_set_meta" []
        [("requester", identity); ("node", device_id); ("key", key); ("value", value)]%string
  | Raise e => (Raise e, st)
  | Diverge => (Diverge, st)
  end.

(** [M2MClient.get_meta] *)
Definition get_meta (st : client) (device_id : pyval) : outcome nat * client :=
  match get_identity st with
  | Ret identity =>
      command st "command_get_meta" [] [("requester", identity); ("node", device_id)]%string
  | Raise e => (Raise e, st)
  | Diverge => (Diverge, st)
  end.

(** the [finally] loop of [M2MClient.__exit__]: [popitem()] removes the most
    recently inserted entry, whose [CommandResult] is then [set(None)]; each
    iteration removes one entry, so [len(command_events)] iterations suffice *)
Fixpoint exit_loop (fuel : nat) (st : client) : client :=
  match fuel with
  | O => st
  | S f =>
      match rev (cl_command_events st) with
      | [] => st
      | (_, result) :: r =>
          exit_loop f (command_result_set (with_command_events st (rev r)) result PNone)
      end
  end.

Definition exit_commands (st : client) : client :=
  exit_loop (List.length (cl_command_events st)) st.

(** a client with one command sent and still pending *)
Definition pending_client : client :=
  mk_client (PBytes (bs "me")) true 1 [(1, 0%nat)]
    [mk_command_result "command_set_name" PNone false] true [bs "li106ei1e2:n13:deve"] [].

(** * Properties *)


Example encode_list_example :
  encode (PList [PInt 1; PInt 3; PStr (bs "hello")]) = Ret (bs "li1ei3e5:helloe").
Proof. reflexivity. Qed.

Example encode_dict_example :
  encode (PDict [(PStr (bs "foo"), PStr (bs "bar"))]) = Raise EncodeError.
Proof. reflexivity. Qed.

Example encode_bytes_dict_example :
  encode (PDict [(PBytes (bs "zz"), PInt 0); (PBytes (bs "foo"), PBytes (bs "bar"))])
  = Ret (bs "d3:foo3:bar2:zzi0ee").
Proof. reflexivity. Qed.

Example decode_example :
  decode 20 (bs "li1ei3e5:helloe") = Ret (PList [PInt 1; PInt 3; PBytes (bs "hello")]).
Proof. reflexivity. Qed.

Example decode_dict_example :
  decode 20 (bs "d3:foo3:bare") = Ret (PDict [(PBytes (bs "foo"), PBytes (bs "bar"))]).
Proof. reflexivity. Qed.

Example route_as_bytes_example :
  (let* p := construct Route [PInt (-1); PBytes (bs "xy")] [] in as_bytes p)
  = Ret (bs "li6ei-1e2:xye").
Proof. reflexivity. Qed.

Example peek_type_example : peek_type (bs "li100ei1ede") = Ret (Some 100).
Proof. reflexivity. Qed.

Example from_bytes_route_missing : from_bytes 10 (bs "li6ee") = Raise AttributeError.
Proof. reflexivity. Qed.

(** ** Command results *)

Lemma dict_lookup_no_str_key (kv : list (pyval * pyval)) (s : bytes) :
  Forall (fun kv => is_str (fst kv) = false) kv -> dict_lookup kv (PStr s) = None.
Proof.
  induction 1 as [|[k v] kv' Hk _ IH]; [reflexivity|].
  simpl in *. destruct k; try discriminate; exact IH.
Qed.

(** [get] on a completed command whose result mapping has no text keys
    (as every mapping [decode] produces) raises [CommandFail('fail; ')]. *)
Lemma command_result_get_without_text_keys (name : string) (kv : list (pyval * pyval)) :
  Forall (fun kv => is_str (fst kv) = false) kv ->
  command_result_get (mk_command_result name (PDict kv) true)
  = Raise (CommandFail_status (PStr (bs "fail")) (PStr [])).
Proof.
  intros H. unfold command_result_get, dict_get. simpl.
  rewrite !dict_lookup_no_str_key by exact H. reflexivity.
Qed.

(** C1 (code_bug): after the identity arrives, [add_route(b'A', b'B')]
    issues command 1, and the server's response [{status: "ok"}] under id 1
    completes it; yet [get] raises [CommandFail('fail; ')] instead of
    returning the mapping, because the decoded mapping is keyed by bytes
    ([b'status']) and [get] looks up the text key ['status']. *)
Theorem add_route_ok_response_raises_CommandFail :
  let '(_, st1) := on_binary 50 (bs "li9e2:mee") connected_client in
  let '(h, st2) := add_route st1 (PBytes (bs "A")) (PBytes (bs "B")) in
  let '(r, st3) := on_binary 50 (bs "li100ei1ed6:status2:okee") st2 in
  h = Ret 0%nat /\
  cl_sent st2 = [bs "li101ei1e1:Ai-1e1:Bi-1e2:mei0ee"] /\
  r = Ret PNone /\
  cl_command_events st3 = [] /\
  option_map command_result_get (nth_error (cl_objects st3) 0)
  = Some (Raise (CommandFail_status (PStr (bs "fail")) (PStr []))).
Proof. vm_compute. repeat split. Qed.

(** ** Codec *)

Lemma decode_size_loop_at_eof (g : nat) (acc : bytes) :
  decode_size_loop g acc [] = Diverge.
Proof.
  revert acc. induction g as [|g IH]; intros acc; [reflexivity|].
  simpl. apply IH.
Qed.

(** C2 (code_bug): [encode] writes a negative integer as [i-<digits>e],
    and [decode] rejects the ['-'] as an illegal digit: no negative integer
    survives the round trip. *)
Theorem decode_encode_negative_int (n : Z) (fuel : nat) :
  n < 0 -> (2 <= fuel)%nat ->
  obind (encode (PInt n)) (decode fuel) = Raise DecodeError.
Proof.
  intros Hn Hf.
  destruct fuel as [|[|fuel]]; [lia|lia|].
  unfold encode, add_encode, str_of_Z.
  replace (n <? 0) with true by (symmetry; apply Z.ltb_lt; exact Hn).
  reflexivity.
Qed.

Lemma decode_encode_negative_int_witness :
  (-1 < 0 /\ (2 <= 10)%nat) /\ obind (encode (PInt (-1))) (decode 10) = Raise DecodeError.
Proof.
  split; [split; lia|].
  apply (decode_encode_negative_int (-1) 10); lia.
Defined.

(** C3 (code_bug): [decode(b"i12")] raises [DecodeError], but
    [decode(b"5:ab")] returns [b"ab"] (a short read is not checked), and
    [decode(b"x")] never returns: the length loop reads [b''] at the end of
    the stream forever. *)
Theorem decode_malformed_inputs :
  decode 10 (bs "i12") = Raise DecodeError /\
  decode 10 (bs "5:ab") = Ret (PBytes (bs "ab")) /\
  (forall fuel, decode fuel (bs "x") = Diverge).
Proof.
  split; [reflexivity|]. split; [reflexivity|].
  intros [|fuel]; [reflexivity|].
  unfold decode. simpl. rewrite decode_size_loop_at_eof. reflexivity.
Qed.

(** C4 (code_bug): on any input whose first byte is [e], [decode] returns
    [None], the end-of-container sentinel of [_decode], to its caller. *)
Theorem decode_returns_end_sentinel (fuel : nat) (rest : bytes) :
  decode (S fuel) ("e"%byte :: rest) = Ret PNone.
Proof. reflexivity. Qed.

(** ** Responses to unknown commands *)

(** C5 (code_bug): a response packet whose command id is not pending makes
    [on_command] raise [UnboundLocalError] (the [except KeyError] branch calls
    [set] on the unbound [command_result]); [dispatch_packet] logs and
    re-raises it.  The pending table and the result objects are unchanged. *)
Theorem on_command_unknown_id_raises (st : client) (cid : Z)
  (result : list (pyval * pyval)) (p : packet) :
  construct CommandResponse [PInt cid; PDict result] [] = Ret p ->
  pop_command (cl_command_events st) cid = None ->
  let '(r, st', evs) := dispatch_packet client_handlers p st in
  r = Raise UnboundLocalError /\
  cl_command_events st' = cl_command_events st /\
  cl_objects st' = cl_objects st /\
  evs = [EvCall 100; EvException "error calling handler"%string].
Proof.
  intros Hp Hpop. simpl in Hp. injection Hp as <-.
  unfold dispatch_packet. simpl.
  unfold on_command. simpl. rewrite Hpop. simpl.
  repeat split.
Qed.

Lemma on_command_unknown_id_raises_witness :
  let '(r, st', evs) :=
    dispatch_packet client_handlers
      (mk_packet CommandResponse [("command_id", PInt 7); ("result", PDict [])]%string)
      connected_client in
  r = Raise UnboundLocalError /\
  cl_command_events st' = cl_command_events connected_client /\
  cl_objects st' = cl_objects connected_client /\
  evs = [EvCall 100; EvException "error calling handler"%string].
Proof.
  exact (on_command_unknown_id_raises connected_client 7 [] _ eq_refl eq_refl).
Defined.

(** ** Construction of packets *)

Lemma str_lookup_set {A} (l : list (string * A)) (k k' : string) (v : A) :
  str_lookup (str_set l k v) k' = if String.eqb k k' then Some v else str_lookup l k'.
Proof.
  induction l as [|[k0 v0] r IH]; simpl.
  - destruct (String.eqb k k'); reflexivity.
  - destruct (String.eqb_spec k0 k) as [->|Hne]; simpl.
    + destruct (String.eqb k k'); reflexivity.
    + rewrite IH.
      destruct (String.eqb_spec k0 k') as [->|]; destruct (String.eqb_spec k k') as [->|];
        congruence.
Qed.

Lemma construct_error_not_Ret (c : packet_class) (x : list (string * pyval)) :
  construct_error c <> Ret x.
Proof. unfold construct_error. destruct (repr_reads_attributes c); discriminate. Qed.

(** one step of the loop of [__init__] *)
Lemma check_attributes_cons (c : packet_class) (name : string) (t : pytype)
  (r : list (string * pytype)) (params params' : list (string * pyval)) :
  check_attributes c ((name, t) :: r) params = Ret params' ->
  exists value,
    str_lookup params name = Some value /\
    isinstance (match value with PStr s => PBytes s | v => v end) t = true /\
    check_attributes c r
      (match value with PStr s => str_set params name (PBytes s) | _ => params end)
    = Ret params'.
Proof.
  simpl. intros H.
  destruct (str_lookup params name) as [value|];
    [|exfalso; exact (construct_error_not_Ret c _ H)].
  exists value. split; [reflexivity|].
  destruct value; simpl in H;
    match type of H with
    | context [isinstance ?w t] =>
        destruct (isinstance w t) eqn:Ht;
        [split; [reflexivity|exact H]|exfalso; exact (construct_error_not_Ret c _ H)]
    end.
Qed.

Lemma check_attributes_preserves (c : packet_class) (attrs : list (string * pytype))
  (params params' : list (string * pyval)) (k : string) :
  check_attributes c attrs params = Ret params' ->
  ~ In k (map fst attrs) ->
  str_lookup params' k = str_lookup params k.
Proof.
  revert params. induction attrs as [|[name t] r IH]; intros params H Hk.
  - simpl in H. injection H as <-. reflexivity.
  - apply check_attributes_cons in H as (value & _ & _ & H).
    simpl in Hk. rewrite (IH _ H) by tauto.
    destruct value; try reflexivity.
    rewrite str_lookup_set. destruct (String.eqb_spec name k); [subst; tauto|reflexivity].
Qed.

Lemma check_attributes_types (c : packet_class) (attrs : list (string * pytype))
  (params params' : list (string * pyval)) :
  NoDup (map fst attrs) ->
  check_attributes c attrs params = Ret params' ->
  forall name t, In (name, t) attrs ->
  exists v, str_lookup params' name = Some v /\ isinstance v t = true.
Proof.
  revert params. induction attrs as [|[n0 t0] r IH]; intros params Hnd H name t Hin;
    [destruct Hin|].
  simpl in Hnd. inversion Hnd as [|? ? Hn0 Hndr]; subst.
  apply check_attributes_cons in H as (value & Hv & Ht & H).
  destruct Hin as [Heq|Hin].
  - injection Heq as <- <-.
    rewrite (check_attributes_preserves c r _ _ n0 H Hn0).
    eexists; split; [|exact Ht].
    destruct value; try exact Hv.
    rewrite str_lookup_set, String.eqb_refl. reflexivity.
  - exact (IH _ Hndr H name t Hin).
Qed.

Fixpoint nodupb (l : list string) : bool :=
  match l with
  | [] => true
  | x :: r => negb (existsb (String.eqb x) r) && nodupb r
  end.

Lemma nodupb_NoDup (l : list string) : nodupb l = true -> NoDup l.
Proof.
  induction l as [|x r IH]; simpl; intros H; constructor.
  - apply andb_true_iff in H as [H _]. intros Hin.
    assert (existsb (String.eqb x) r = true) as E.
    { apply existsb_exists. exists x. split; [exact Hin|apply String.eqb_refl]. }
    rewrite E in H. discriminate.
  - apply andb_true_iff in H as [_ H]. exact (IH H).
Qed.

Lemma attributes_NoDup (c : packet_class) : NoDup (map fst (attributes c)).
Proof. apply nodupb_NoDup. destruct c; reflexivity. Qed.

Lemma construct_Ret (c : packet_class) (args : list pyval) (kwargs : list (string * pyval))
  (p : packet) :
  construct c args kwargs = Ret p ->
  pk_class p = c /\
  forall name t, In (name, t) (attributes c) ->
  exists v, str_lookup (pk_params p) name = Some v /\ isinstance v t = true.
Proof.
  unfold construct. intros H.
  destruct (check_attributes c (attributes c) _) as [params'| |] eqn:Hc; try discriminate.
  simpl in H. injection H as <-. split; [reflexivity|].
  exact (check_attributes_types c _ _ _ (attributes_NoDup c) Hc).
Qed.

(** ** Shortcut encodings *)

Ltac attr_value Hty name t :=
  let v := fresh "v" in
  let Hv := fresh "Hv" in
  let Hi := fresh "Hi" in
  destruct (Hty name t ltac:(simpl; tauto)) as (v & Hv & Hi);
  destruct v; try discriminate Hi.

Ltac shortcut_eq :=
  simpl; unfold shortcut_len_bytes, encode_bytes; simpl;
  repeat (rewrite <- app_assoc || rewrite app_nil_r); simpl; reflexivity.

(** C6: for every class with a precomputed or shortcut [as_bytes] (Null,
    Welcome, Log, Route, Ping, SetIdentity, NotifyOpen, NotifyClose) and
    every instance built from type-conformant values of its declared
    attributes, [as_bytes] is byte-identical to [PacketBase.as_bytes], the
    bencoding of [[type, attr1, attr2, ...]]. *)
Theorem shortcut_as_bytes_is_generic (c : packet_class) (args : list pyval)
  (kwargs : list (string * pyval)) (p : packet) :
  has_shortcut c = true ->
  forallb (fun kv => existsb (String.eqb (fst kv)) (map fst (attributes c))) kwargs = true ->
  construct c args kwargs = Ret p ->
  as_bytes p = generic_as_bytes p.
Proof.
  intros Hs _ Hp. apply construct_Ret in Hp as [Hc Hty].
  destruct p as [c' params]. simpl in Hc. subst c'.
  destruct c; try discriminate Hs; simpl in Hty;
    unfold as_bytes, generic_as_bytes, getattrs, getattr; simpl.
  - reflexivity.
  - reflexivity.
  - attr_value Hty "text"%string TBytes. rewrite Hv. shortcut_eq.
  - attr_value Hty "port"%string TInt. attr_value Hty "data"%string TBytes.
    rewrite Hv, Hv0. shortcut_eq.
  - attr_value Hty "data"%string TBytes. rewrite Hv. shortcut_eq.
  - attr_value Hty "identity"%string TBytes. rewrite Hv. shortcut_eq.
  - attr_value Hty "port"%string TInt. rewrite Hv. shortcut_eq.
  - attr_value Hty "port"%string TInt. rewrite Hv. shortcut_eq.
Qed.

Lemma shortcut_as_bytes_is_generic_witness :
  let p := mk_packet Route [("port", PInt (-1)); ("data", PBytes (bs "xy"))]%string in
  has_shortcut Route = true /\
  construct Route [PInt (-1); PBytes (bs "xy")] [] = Ret p /\
  as_bytes p = generic_as_bytes p.
Proof.
  intro p. split; [reflexivity|]. split; [vm_compute; reflexivity|].
  apply (shortcut_as_bytes_is_generic Route [PInt (-1); PBytes (bs "xy")] []);
    [reflexivity | reflexivity | vm_compute; reflexivity].
Defined.

(** ** Dispatch *)

(** C8: [Dispatcher.dispatch_packet].  A packet whose type has no handler
    goes to [on_missing_handler], which logs a warning and returns [None]
    without raising.  A packet whose handler declares a coercion that raises
    on the packet's keyword arguments is re-signalled as
    [dispatcher.PacketFormatError] after a warning; the handler body is not
    called (the result, the state and the events do not depend on it, and no
    call event is recorded). *)
Theorem dispatch_missing_or_invalid (S : Type) (packet_handlers : list (Z * handler S))
  (p : packet) (st : S) :
  (Z_lookup packet_handlers (cls_type (pk_class p)) = None ->
   dispatch_packet packet_handlers p st = (Ret PNone, st, [EvWarning "no handler"%string])) /\
  (forall method kwargs e,
   Z_lookup packet_handlers (cls_type (pk_class p)) = Some method ->
   packet_kwargs p = Ret kwargs ->
   coerce_params (h_annotations method) kwargs = Raise e ->
   dispatch_packet packet_handlers p st =
     (Raise DispatchFormatError, st, [EvWarning "packet failed to validate"%string])).
Proof.
  split.
  - intros H. unfold dispatch_packet. rewrite H. reflexivity.
  - intros method kwargs e H Hk Hc. unfold dispatch_packet. rewrite H, Hk, Hc. reflexivity.
Qed.

Lemma dispatch_missing_or_invalid_witness :
  let ping := mk_packet Ping [("data", PBytes (bs "x"))]%string in
  let bad_log := mk_packet Log [("text", PBytes [Byte.xff])]%string in
  dispatch_packet client_handlers ping connected_client =
    (Ret PNone, connected_client, [EvWarning "no handler"%string]) /\
  dispatch_packet client_handlers bad_log connected_client =
    (Raise DispatchFormatError, connected_client,
     [EvWarning "packet failed to validate"%string]).
Proof.
  intros ping bad_log. split.
  - apply (proj1 (dispatch_missing_or_invalid client client_handlers ping connected_client)).
    reflexivity.
  - apply (proj2 (dispatch_missing_or_invalid client client_handlers bad_log connected_client)
             (mk_handler [("text"%string, bytes_decode)] handle_log)
             [("text", PBytes [Byte.xff])]%string UnicodeDecodeError);
      vm_compute; reflexivity.
Defined.

(** ** Type peeking *)
Lemma generic_as_bytes_prefix (p : packet) (b : bytes) :
  generic_as_bytes p = Ret b ->
  exists rest, b = "l"%byte :: "i"%byte :: str_of_Z (cls_type (pk_class p)) ++ "e"%byte :: rest.
Proof.
  unfold generic_as_bytes. destruct (getattrs p _) as [vals| |]; simpl; try discriminate.
  unfold encode; simpl.
  lazymatch goal with |- context [obind (?f vals) _] => destruct (f vals) end; simpl; try discriminate.
  intros H; injection H as <-. eexists. rewrite <- !app_assoc. reflexivity.
Qed.

Lemma peek_type_tag (c : packet_class) (rest : bytes) :
  peek_type ("l"%byte :: "i"%byte :: str_of_Z (cls_type c) ++ "e"%byte :: rest) = Ret (Some (cls_type c)).
Proof. destruct c; reflexivity. Qed.

Lemma as_bytes_prefix (p : packet) (b : bytes) :
  as_bytes p = Ret b ->
  exists rest, b = "l"%byte :: "i"%byte :: str_of_Z (cls_type (pk_class p)) ++ "e"%byte :: rest.
Proof.
  destruct p as [c params].
  destruct c; unfold as_bytes; simpl pk_class; try apply generic_as_bytes_prefix;
    unfold getattr, shortcut_len_bytes; simpl;
    repeat match goal with
      | |- context [str_lookup ?l ?n] =>
          let v := fresh "v" in destruct (str_lookup l n) as [v|]; [destruct v|]; simpl; try discriminate
      end;
    intros H; injection H as <-; eexists; reflexivity.
Qed.

Lemma partition_e_found (x a t y : bytes) :
  partition_e x = (a, t, y) -> t <> [] -> x = a ++ "e"%byte :: y.
Proof.
  revert a t y. induction x as [|c r IH]; intros a t y; simpl.
  - intros H Ht. injection H as <- <- <-. contradiction.
  - destruct (Byte.eqb c "e"%byte) eqn:E.
    + intros H _. injection H as <- <- <-. apply Byte.byte_dec_bl in E. subst c. reflexivity.
    + destruct (partition_e r) as [[x' t'] y'] eqn:P.
      intros H Ht. injection H as <- <- <-. simpl. f_equal. exact (IH x' t' y' eq_refl Ht).
Qed.

Lemma digit_not_space (c : byte) : is_digit_byte c = true -> is_space_byte c = false.
Proof. intros H; destruct c; try reflexivity; discriminate H. Qed.

Lemma digit_not_sign (c : byte) :
  is_digit_byte c = true -> Byte.eqb c "-"%byte = false /\ Byte.eqb c "+"%byte = false.
Proof. intros H; destruct c; try (split; reflexivity); discriminate H. Qed.

Lemma drop_spaces_digits (d : bytes) : forallb is_digit_byte d = true -> drop_spaces d = d.
Proof.
  destruct d as [|c r]; simpl; [reflexivity|].
  intros H. apply andb_prop in H as [Hc _]. rewrite (digit_not_space c Hc). reflexivity.
Qed.

Lemma forallb_rev {A} (f : A -> bool) (l : list A) : forallb f (rev l) = forallb f l.
Proof.
  induction l as [|x r IH]; simpl; [reflexivity|].
  rewrite forallb_app, IH. simpl. rewrite andb_true_r, andb_comm. reflexivity.
Qed.

Lemma strip_spaces_digits (d : bytes) : forallb is_digit_byte d = true -> strip_spaces d = d.
Proof.
  intros H. unfold strip_spaces. rewrite (drop_spaces_digits d H).
  rewrite drop_spaces_digits by (rewrite forallb_rev; exact H). apply rev_involutive.
Qed.

Lemma digit_value_nonneg (c : byte) : is_digit_byte c = true -> 0 <= digit_value c.
Proof.
  unfold is_digit_byte, digit_value. intros H. apply andb_prop in H as [H _].
  apply Nat.leb_le in H. lia.
Qed.

Lemma int_body_digits (d : bytes) (acc : Z) (after : bool) :
  forallb is_digit_byte d = true -> (d <> [] \/ after = true) -> 0 <= acc ->
  exists t, int_body acc after d = Some t /\ 0 <= t.
Proof.
  revert acc after. induction d as [|c r IH]; intros acc after Hd Hne Hacc; simpl.
  - destruct Hne as [Hne | ->]; [contradiction|]. exists acc. split; [reflexivity|assumption].
  - simpl in Hd. apply andb_prop in Hd as [Hc Hr]. rewrite Hc.
    apply IH; [assumption|right; reflexivity|].
    pose proof (digit_value_nonneg c Hc). lia.
Qed.

Lemma py_int_digits (d : bytes) :
  bytes_isdigit d = true -> exists t, py_int d = Some t /\ 0 <= t.
Proof.
  destruct d as [|c r]; [discriminate|]. unfold bytes_isdigit. intros H.
  unfold py_int. rewrite (strip_spaces_digits _ H).
  simpl in H. pose proof H as H'. apply andb_prop in H' as [Hc _].
  destruct (digit_not_sign c Hc) as [-> ->].
  apply int_body_digits; [exact H|left; discriminate|lia].
Qed.

Lemma bytes_eqb_true (a b : bytes) : bytes_eqb a b = true -> a = b.
Proof.
  revert b. induction a as [|x a IH]; intros [|y b]; simpl; try discriminate; [reflexivity|].
  intros H. apply andb_prop in H as [Hx Hr]. apply Byte.byte_dec_bl in Hx. subst y.
  f_equal. apply IH. exact Hr.
Qed.

Lemma peek_type_cases (b : bytes) :
  peek_type b = Ret None \/
  exists t d rest, peek_type b = Ret (Some t) /\
    b = "l"%byte :: "i"%byte :: d ++ "e"%byte :: rest /\
    bytes_isdigit d = true /\ py_int d = Some t /\ 0 <= t.
Proof.
  unfold peek_type. destruct (starts_with (bs "li") b) eqn:Hs; [|left; reflexivity].
  unfold starts_with in Hs. apply bytes_eqb_true in Hs.
  destruct b as [|x [|y rest0]]; simpl in Hs; try discriminate.
  injection Hs as -> ->. simpl skipn.
  destruct (partition_e (firstn 6 rest0)) as [[d t'] y'] eqn:P.
  destruct t' as [|e t'']; [left; reflexivity|]. simpl negb. cbv iota.
  destruct (bytes_isdigit d) eqn:Hd; [|left; reflexivity].
  destruct (py_int_digits d Hd) as (t & Ht & Hnn). rewrite Ht. right.
  exists t, d, (y' ++ skipn 6 rest0). split; [reflexivity|]. split; [|auto].
  apply partition_e_found in P; [|discriminate].
  assert (E : rest0 = firstn 6 rest0 ++ skipn 6 rest0) by (symmetry; apply firstn_skipn).
  rewrite P in E. rewrite E at 1. rewrite <- app_assoc. reflexivity.
Qed.

(** C10: [M2MPacket.peek_type] on the serialisation of any instance built
    with conformant attribute values (whenever [as_bytes] succeeds) gives its
    type tag [int(p.type)]; it reads only the head [li<tag>e], whatever
    follows (so it does not decode the packet); and it returns [None]
    (never raising) on any input that does not begin with [l], [i], a
    non-empty run of ASCII digits and [e], a run whose value is the
    non-negative integer returned. *)
Theorem peek_type_reads_tag :
  (forall (c : packet_class) args kwargs p b,
     construct c args kwargs = Ret p -> as_bytes p = Ret b ->
     peek_type b = Ret (Some (cls_type c))) /\
  (forall (c : packet_class) (rest : bytes),
     peek_type ("l"%byte :: "i"%byte :: str_of_Z (cls_type c) ++ "e"%byte :: rest) =
       Ret (Some (cls_type c))) /\
  (forall b : bytes,
     peek_type b = Ret None \/
     exists t d rest, peek_type b = Ret (Some t) /\
       b = "l"%byte :: "i"%byte :: d ++ "e"%byte :: rest /\
       bytes_isdigit d = true /\ py_int d = Some t /\ 0 <= t).
Proof.
  split; [|split].
  - intros c args kwargs p b Hp Hb.
    apply construct_Ret in Hp as [Hc _].
    apply as_bytes_prefix in Hb as [rest ->]. rewrite Hc. apply peek_type_tag.
  - exact peek_type_tag.
  - exact peek_type_cases.
Qed.

Lemma peek_type_reads_tag_witness :
  let p := mk_packet Route [("port", PInt (-1)); ("data", PBytes (bs "xy"))]%string in
  construct Route [PInt (-1); PBytes (bs "xy")] [] = Ret p /\
  as_bytes p = Ret (bs "li6ei-1e2:xye") /\
  peek_type (bs "li6ei-1e2:xye") = Ret (Some 6).
Proof.
  intro p.
  assert (Hp : construct Route [PInt (-1); PBytes (bs "xy")] [] = Ret p) by (vm_compute; reflexivity).
  assert (Hb : as_bytes p = Ret (bs "li6ei-1e2:xye")) by (vm_compute; reflexivity).
  split; [exact Hp|]. split; [exact Hb|].
  exact (proj1 peek_type_reads_tag Route _ _ p _ Hp Hb).
Defined.

(** ** Packet parsing *)
Lemma str_lookup_zip_params (args : list pyval) (attrs : list (string * pytype)) :
  NoDup (map fst attrs) ->
  forall i name t, nth_error attrs i = Some (name, t) ->
  str_lookup (zip_params args attrs) name = nth_error args i.
Proof.
  revert args. induction attrs as [|[n0 t0] r IH]; intros args Hnd i name t Hi.
  - destruct i; discriminate.
  - simpl in Hnd. inversion Hnd as [|? ? Hn0 Hnd']; subst.
    destruct args as [|a args'].
    + destruct i; reflexivity.
    + destruct i as [|i]; simpl in Hi |- *.
      * injection Hi as <- <-. rewrite String.eqb_refl. reflexivity.
      * assert (Hne : n0 <> name).
        { intros <-. apply Hn0. apply nth_error_In in Hi.
          apply (in_map fst) in Hi. exact Hi. }
        apply String.eqb_neq in Hne. rewrite Hne. exact (IH args' Hnd' i name t Hi).
Qed.

Lemma check_attributes_conform (c : packet_class) (attrs : list (string * pytype)) :
  NoDup (map fst attrs) ->
  forall (params : list (string * pyval)) (vals : list pyval),
  (forall i name t, nth_error attrs i = Some (name, t) -> str_lookup params name = nth_error vals i) ->
  (args_conform attrs vals = true -> exists params', check_attributes c attrs params = Ret params') /\
  (args_conform attrs vals = false -> check_attributes c attrs params = construct_error c).
Proof.
  induction attrs as [|[name t] r IH]; intros Hnd params vals Hl.
  - split; [intros _; exists params; reflexivity | discriminate].
  - simpl in Hnd. inversion Hnd as [|? ? Hn Hnd']; subst.
    pose proof (Hl 0%nat name t eq_refl) as H0. simpl in H0.
        destruct vals as [|v vals']; simpl; rewrite H0.
    + split; [discriminate | reflexivity].
    + assert (Hrest : forall params',
                (forall n', In n' (map fst r) -> str_lookup params' n' = str_lookup params n') ->
                (args_conform r vals' = true -> exists q, check_attributes c r params' = Ret q) /\
                (args_conform r vals' = false -> check_attributes c r params' = construct_error c)).
      { intros params' Heq. apply IH; [exact Hnd'|].
        intros i n' t' Hi. rewrite Heq.
        - exact (Hl (S i) n' t' Hi).
        - apply nth_error_In in Hi. apply (in_map fst) in Hi. exact Hi. }
      destruct v; simpl;
        try (destruct (isinstance _ t) eqn:Ht; simpl;
             [apply Hrest; reflexivity | split; [discriminate | reflexivity]]).
      destruct (isinstance _ t) eqn:Ht; simpl.
      * apply Hrest. intros n' Hin. rewrite str_lookup_set.
        destruct (String.eqb name n') eqn:E; [|reflexivity].
        apply String.eqb_eq in E. subst n'. contradiction.
      * split; [discriminate | reflexivity].
Qed.

Lemma construct_positional (c : packet_class) (args : list pyval) :
  (args_conform (attributes c) args = true ->
   exists params, construct c args [] = Ret (mk_packet c params)) /\
  (args_conform (attributes c) args = false ->
   construct c args [] =
     if repr_reads_attributes c then Raise AttributeError else Raise PacketFormatError).
Proof.
  unfold construct. simpl fold_left.
  destruct (check_attributes_conform c (attributes c) (attributes_NoDup c)
              (zip_params args (attributes c)) args
              (str_lookup_zip_params args _ (attributes_NoDup c))) as [H1 H2].
  split; intros H.
  - destruct (H1 H) as [q Hq]. rewrite Hq. exists q. reflexivity.
  - rewrite (H2 H). unfold construct_error. destruct (repr_reads_attributes c); reflexivity.
Qed.

(** C7 (amended): [PacketBase.from_bytes] on an input [s].  An input not
    starting with [l], or whose decoding raises [DecodeError], or whose
    decoded list starts with a non-integer, fails with [PacketFormatError]; an
    unregistered integer tag fails with [UnknownPacketError]; a registered tag
    gives an instance of its class exactly when the body conforms
    positionally to the declared attributes, and otherwise fails with
    [PacketFormatError] (for the classes whose [__repr__] does not read
    attributes); and every returned instance comes from such a list. *)
Theorem from_bytes_outcomes (fuel : nat) (s : bytes) :
  (starts_with (bs "l") s = false -> from_bytes fuel s = Raise PacketFormatError) /\
  (starts_with (bs "l") s = true -> decode fuel s = Raise DecodeError ->
   from_bytes fuel s = Raise PacketFormatError) /\
  (forall v body, starts_with (bs "l") s = true -> decode fuel s = Ret (PList (v :: body)) ->
   (forall t, v <> PInt t) -> from_bytes fuel s = Raise PacketFormatError) /\
  (forall t body, starts_with (bs "l") s = true -> decode fuel s = Ret (PList (PInt t :: body)) ->
   registry_get t = None -> from_bytes fuel s = Raise UnknownPacketError) /\
  (forall t body c, starts_with (bs "l") s = true ->
   decode fuel s = Ret (PList (PInt t :: body)) -> registry_get t = Some c ->
   (args_conform (attributes c) body = true ->
    exists params, from_bytes fuel s = Ret (mk_packet c params)) /\
   (args_conform (attributes c) body = false -> repr_reads_attributes c = false ->
    from_bytes fuel s = Raise PacketFormatError)) /\
  (forall p, from_bytes fuel s = Ret p ->
   exists t body, decode fuel s = Ret (PList (PInt t :: body)) /\
     registry_get t = Some (pk_class p) /\ args_conform (attributes (pk_class p)) body = true).
Proof.
  unfold from_bytes.
  split; [intros Hs; rewrite Hs; reflexivity|].
  split; [intros Hs Hd; rewrite Hs, Hd; reflexivity|].
  split; [intros v body Hs Hd Hv; rewrite Hs, Hd; simpl;
          destruct v; try reflexivity; exfalso; eapply Hv; reflexivity|].
  split; [intros t body Hs Hd Hr; rewrite Hs, Hd; simpl; rewrite Hr; reflexivity|].
  split.
  - intros t body c Hs Hd Hr. rewrite Hs, Hd. simpl. rewrite Hr.
    destruct (construct_positional c body) as [H1 H2]. split.
    + exact H1.
    + intros Ha Hrepr. rewrite (H2 Ha), Hrepr. reflexivity.
  - intros p H. destruct (starts_with (bs "l") s); simpl in H; [|discriminate].
    destruct (decode fuel s) as [d|e|]; [|destruct e; discriminate|discriminate].
    destruct d as [| | | |l|]; try discriminate. destruct l as [|v body]; [discriminate|].
    destruct v; try discriminate. destruct (registry_get z) as [c|] eqn:Hr; [|discriminate].
    exists z, body.
    destruct (args_conform (attributes c) body) eqn:Ha.
    + destruct (proj1 (construct_positional c body) Ha) as [q Hq].
      rewrite Hq in H. injection H as <-. simpl. auto.
    + rewrite (proj2 (construct_positional c body) Ha) in H.
      destruct (repr_reads_attributes c); discriminate.
Qed.

Lemma from_bytes_outcomes_witness :
  (exists params, from_bytes 10 (bs "li4e3:abce") = Ret (mk_packet Log params)) /\
  from_bytes 10 (bs "li99ee") = Raise UnknownPacketError /\
  from_bytes 10 (bs "li4ee") = Raise PacketFormatError /\
  from_bytes 10 (bs "d1:ai1ee") = Raise PacketFormatError.
Proof.
  split; [|split; [|split]].
  - apply (proj1 (proj1 (proj2 (proj2 (proj2 (proj2 (from_bytes_outcomes 10 (bs "li4e3:abce"))))))
                   4 [PBytes (bs "abc")] Log eq_refl eq_refl eq_refl)).
    reflexivity.
  - apply (proj1 (proj2 (proj2 (proj2 (from_bytes_outcomes 10 (bs "li99ee")))))
                 99 []); reflexivity.
  - apply (proj2 (proj1 (proj2 (proj2 (proj2 (proj2 (from_bytes_outcomes 10 (bs "li4ee"))))))
                   4 [] Log eq_refl eq_refl eq_refl)); reflexivity.
  - apply (proj1 (from_bytes_outcomes 10 (bs "d1:ai1ee"))). reflexivity.
Defined.

(** A list whose first element is the registered tag of [Log] but whose body
    lacks the [text] attribute is rejected, not turned into a packet. *)
Lemma from_bytes_registered_tag_rejected :
  registry_get 4 = Some Log /\
  decode 10 (bs "li4ee") = Ret (PList [PInt 4]) /\
  from_bytes 10 (bs "li4ee") = Raise PacketFormatError.
Proof. split; [|split]; reflexivity. Qed.

(** ** Decoding keeps no state *)
Lemma read_length (n : Z) (s a s' : bytes) :
  read n s = (a, s') -> (List.length s' <= List.length s)%nat.
Proof.
  unfold read. destruct (n <? 0); intros H; injection H as <- <-; simpl.
  - lia.
  - rewrite length_skipn. lia.
Qed.

Lemma decode_int_loop_length (g : nat) (nb s : bytes) (v : pyval) (r : bytes) :
  decode_int_loop g nb s = Ret (v, r) -> (List.length r <= List.length s)%nat.
Proof.
  revert nb s. induction g as [|g IH]; intros nb s H; simpl in H; [discriminate|].
  destruct s as [|x s0]; simpl in H; [discriminate|].
  destruct (is_digit_byte x); simpl in H.
  - apply IH in H. simpl. lia.
  - destruct (Byte.eqb x "e"%byte); simpl in H; [|discriminate].
    destruct (py_int nb); [|discriminate]. inversion H; subst. simpl. lia.
Qed.

Lemma decode_size_loop_length (g : nat) (sb s : bytes) (v : pyval) (r : bytes) :
  decode_size_loop g sb s = Ret (v, r) -> (List.length r <= List.length s)%nat.
Proof.
  revert sb s. induction g as [|g IH]; intros sb s H; simpl in H; [discriminate|].
  destruct s as [|x s0]; simpl in H.
  - rewrite decode_size_loop_at_eof in H. discriminate.
  - destruct (Byte.eqb x ":"%byte); simpl in H.
    + destruct (py_int sb) as [size|]; [|discriminate].
      destruct (read size s0) as [b s''] eqn:Hr'. apply read_length in Hr'.
      inversion H; subst. simpl. lia.
    + apply IH in H. simpl. lia.
Qed.

Lemma _decode_consumes (fuel : nat) (s : bytes) (v : pyval) (r : bytes) :
  _decode fuel s = Ret (v, r) -> (List.length r < List.length s)%nat.
Proof.
  revert s v r. induction fuel as [|f IH]; intros s v r H; simpl in H; [discriminate|].
  destruct s as [|b s0].
  - simpl in H. rewrite decode_size_loop_at_eof in H. discriminate.
  - simpl read in H. simpl List.length.
    destruct (bytes_eqb [b] (bs "e")).
    { inversion H; subst; lia. }
    destruct (bytes_eqb [b] (bs "i")).
    { apply decode_int_loop_length in H. lia. }
    destruct (bytes_eqb [b] (bs "l")).
    { match type of H with ?F f [] s0 = _ =>
        assert (HF : forall g l st v' r', F g l st = Ret (v', r') ->
                       (List.length r' <= List.length st)%nat)
      end.
      { intros g; induction g as [|g IHg]; intros l st v' r' Hg; [discriminate|].
        simpl in Hg.
        destruct (_decode f st) as [[x st']| |] eqn:E; try discriminate.
        apply IH in E.
        destruct x; try (apply IHg in Hg; lia). inversion Hg; subst; lia. }
      apply HF in H. lia. }
    destruct (bytes_eqb [b] (bs "d")).
    { match type of H with ?F f [] s0 = _ =>
        assert (HF : forall g kv st v' r', F g kv st = Ret (v', r') ->
                       (List.length r' <= List.length st)%nat)
      end.
      { intros g; induction g as [|g IHg]; intros kv st v' r' Hg; [discriminate|].
        simpl in Hg.
        destruct (_decode f st) as [[k st']| |] eqn:E; try discriminate.
        apply IH in E.
        destruct k;
          try (destruct (_decode f st') as [[x st'']| |] eqn:E2; try discriminate;
               apply IH in E2; apply IHg in Hg; lia).
        destruct (dict_of_pairs kv); try discriminate. inversion Hg; subst; lia. }
      apply HF in H. lia. }
    apply decode_size_loop_length in H. lia.
Qed.

(** C9 (amended): [bencode.decode] keeps no cache between calls.  Each
    call's result and the bytes it reads depend on its own input only,
    whatever calls came before, and a call that returns a value has parsed
    it from its input, reading at least one byte of it, however short the
    input and however often it was decoded before. *)
Theorem decode_keeps_no_cache (fuel : nat) (pre : list bytes) (x : bytes) :
  decode_calls fuel (pre ++ [x]) = decode_calls fuel pre ++ [decode_traced fuel x] /\
  (forall v n, decode_traced fuel x = (Ret v, Some n) ->
   decode fuel x = Ret v /\ (1 <= n <= List.length x)%nat).
Proof.
  split.
  - induction pre as [|y pre IH]; simpl; [reflexivity|]. rewrite IH. reflexivity.
  - intros v n. unfold decode_traced, decode.
    destruct (_decode fuel x) as [[v' r]| |] eqn:E; try discriminate.
    intros H. injection H as <- <-. apply _decode_consumes in E.
    split; [reflexivity | lia].
Qed.

Lemma decode_keeps_no_cache_witness :
  decode_calls 10 ([bs "i5e"] ++ [bs "i5e"]) =
    decode_calls 10 [bs "i5e"] ++ [decode_traced 10 (bs "i5e")] /\
  decode 10 (bs "i5e") = Ret (PInt 5) /\ (1 <= 3 <= List.length (bs "i5e"))%nat.
Proof.
  destruct (decode_keeps_no_cache 10 [bs "i5e"] (bs "i5e")) as [H1 H2].
  split; [exact H1|]. apply H2. vm_compute. reflexivity.
Defined.

(** Decoding the short input [i5e] twice parses it twice (three bytes each
    time), where the memoising decode of the specification answers the second
    call from its cache without reading. *)
Lemma decode_repeated_input_reparsed :
  decode_calls 10 [bs "i5e"; bs "i5e"] =
    [(Ret (PInt 5), Some 3%nat); (Ret (PInt 5), Some 3%nat)] /\
  spec_decode_memo_calls 10 (mk_spec_lru 2 []) [bs "i5e"; bs "i5e"] =
    [(Ret (PInt 5), Some 3%nat); (Ret (PInt 5), Some 0%nat)].
Proof. split; vm_compute; reflexivity. Qed.

(** * Further properties of the code *)

Lemma digit_byte_spec (d : Z) :
  0 <= d <= 9 -> is_digit_byte (digit_byte d) = true /\ digit_value (digit_byte d) = d.
Proof.
  intros H.
  assert (E : d = 0 \/ d = 1 \/ d = 2 \/ d = 3 \/ d = 4 \/ d = 5 \/ d = 6 \/ d = 7 \/ d = 8 \/ d = 9)
    by lia.
  repeat (destruct E as [-> | E]; [split; reflexivity |]). subst. split; reflexivity.
Qed.

Lemma int_body_value (d : bytes) (acc : Z) (after : bool) :
  forallb is_digit_byte d = true -> (d <> [] \/ after = true) ->
  int_body acc after d = Some (digits_value acc d).
Proof.
  revert acc after. induction d as [|c r IH]; intros acc after Hd Hne; simpl.
  - destruct Hne as [Hne | ->]; [contradiction | reflexivity].
  - simpl in Hd. apply andb_prop in Hd as [Hc Hr]. rewrite Hc.
    apply IH; [assumption | right; reflexivity].
Qed.

Lemma digits_value_app (acc : Z) (d e : bytes) :
  digits_value acc (d ++ e) = digits_value (digits_value acc d) e.
Proof. unfold digits_value. apply fold_left_app. Qed.

Lemma nat_digits_rev_spec (k : nat) (n : Z) :
  (1 <= k)%nat -> 0 <= n < 10 ^ Z.of_nat k ->
  forallb is_digit_byte (nat_digits_rev k n) = true /\
  nat_digits_rev k n <> [] /\
  digits_value 0 (rev (nat_digits_rev k n)) = n.
Proof.
  revert n. induction k as [|k IH]; intros n Hk Hn; [lia|].
  change (nat_digits_rev (S k) n) with
    (if n <? 10 then [digit_byte n] else digit_byte (n mod 10) :: nat_digits_rev k (n / 10)).
  destruct (n <? 10) eqn:E.
  - apply Z.ltb_lt in E. destruct (digit_byte_spec n ltac:(lia)) as [H1 H2].
    cbn [forallb rev app]. rewrite H1. repeat split; [discriminate|].
    unfold digits_value. cbn [fold_left]. lia.
  - apply Z.ltb_ge in E.
    assert (Hk' : (1 <= k)%nat).
    { destruct k; [simpl in Hn; lia | lia]. }
    assert (Hq : 0 <= n / 10 < 10 ^ Z.of_nat k).
    { split; [apply Z.div_pos; lia|].
      apply Z.div_lt_upper_bound; [lia|].
      rewrite Nat2Z.inj_succ, Z.pow_succ_r in Hn by lia. lia. }
    destruct (IH (n / 10) Hk' Hq) as (H1 & H2 & H3).
    destruct (digit_byte_spec (n mod 10) ltac:(pose proof (Z.mod_pos_bound n 10); lia))
      as [D1 D2].
    cbn [forallb rev]. rewrite D1, H1. repeat split; [discriminate|].
    rewrite digits_value_app, H3. unfold digits_value. cbn [fold_left]. rewrite D2.
    pose proof (Z.div_mod n 10). lia.
Qed.

Lemma str_of_nonneg_spec (n : Z) :
  0 <= n ->
  forallb is_digit_byte (str_of_nonneg n) = true /\
  str_of_nonneg n <> [] /\
  digits_value 0 (str_of_nonneg n) = n.
Proof.
  intros Hn. unfold str_of_nonneg.
  assert (Hb : 0 <= n < 10 ^ Z.of_nat (S (Z.to_nat (Z.log2 n)))).
  { split; [lia|]. destruct (Z.eq_dec n 0) as [->|Hne]; [simpl; lia|].
    destruct (Z.log2_spec n ltac:(lia)) as [_ Hlt].
    rewrite Nat2Z.inj_succ, Z2Nat.id by apply Z.log2_nonneg.
    eapply Z.lt_le_trans; [exact Hlt|].
    apply Z.pow_le_mono_l. split; [lia|lia]. }
  destruct (nat_digits_rev_spec (S (Z.to_nat (Z.log2 n))) n ltac:(lia) Hb) as (H1 & H2 & H3).
  repeat split.
  - rewrite forallb_rev. exact H1.
  - intros E. apply H2. rewrite <- (rev_involutive (nat_digits_rev _ n)), E. reflexivity.
  - exact H3.
Qed.

Lemma digit_not_special (c : byte) :
  is_digit_byte c = true ->
  Byte.eqb c ":"%byte = false /\ Byte.eqb c "e"%byte = false /\ Byte.eqb c "i"%byte = false /\
  Byte.eqb c "l"%byte = false /\ Byte.eqb c "d"%byte = false.
Proof. intros H; destruct c; try (repeat split; reflexivity); discriminate H. Qed.

Lemma py_int_digits_value (d : bytes) :
  forallb is_digit_byte d = true -> d <> [] -> py_int d = Some (digits_value 0 d).
Proof.
  intros Hd Hne. destruct d as [|c r]; [contradiction|].
  unfold py_int. rewrite (strip_spaces_digits _ Hd).
  pose proof Hd as Hd'. simpl in Hd'. apply andb_prop in Hd' as [Hc _].
  destruct (digit_not_sign c Hc) as [-> ->].
  apply int_body_value; [exact Hd | left; discriminate].
Qed.

Lemma decode_int_loop_digits (f : nat) (acc d rest : bytes) :
  forallb is_digit_byte d = true ->
  decode_int_loop f acc (d ++ "e"%byte :: rest) =
    if (S (List.length d) <=? f)%nat then
      match py_int (acc ++ d) with Some n => Ret (PInt n, rest) | None => Raise ValueError end
    else Diverge.
Proof.
  revert f acc. induction d as [|c d IH]; intros f acc Hd; destruct f as [|f]; try reflexivity.
  - simpl. rewrite app_nil_r. reflexivity.
  - simpl in Hd. apply andb_prop in Hd as [Hc Hd].
    simpl. rewrite Hc. simpl. rewrite IH by exact Hd.
    rewrite <- app_assoc. reflexivity.
Qed.

Lemma decode_size_loop_digits (f : nat) (acc d rest : bytes) :
  forallb is_digit_byte d = true ->
  decode_size_loop f acc (d ++ ":"%byte :: rest) =
    if (S (List.length d) <=? f)%nat then
      match py_int (acc ++ d) with
      | Some size => let (b, s'') := read size rest in Ret (PBytes b, s'')
      | None => Raise ValueError
      end
    else Diverge.
Proof.
  revert f acc. induction d as [|c d IH]; intros f acc Hd; destruct f as [|f]; try reflexivity.
  - simpl. rewrite app_nil_r. reflexivity.
  - simpl in Hd. apply andb_prop in Hd as [Hc Hd].
    destruct (digit_not_special c Hc) as (Hcol & _).
    simpl. rewrite Hcol. simpl. rewrite IH by exact Hd.
    rewrite <- app_assoc. reflexivity.
Qed.


Lemma add_encode_list (l : list pyval) :
  add_encode (PList l) = let* body := add_encode_items l in Ret (bs "l" ++ body ++ bs "e").
Proof. reflexivity. Qed.

Lemma add_encode_dict (kv : list (pyval * pyval)) :
  add_encode (PDict kv) =
    let* items := sorted_items (add_encode_values kv) in
    let* body := encode_items items in
    Ret (bs "d" ++ body ++ bs "e").
Proof. reflexivity. Qed.

Lemma _decode_list (f : nat) (s : bytes) :
  _decode (S f) ("l"%byte :: s) = decode_list_loop f f [] s.
Proof. reflexivity. Qed.

Lemma _decode_dict (f : nat) (s : bytes) :
  _decode (S f) ("d"%byte :: s) = decode_dict_loop f f [] s.
Proof. reflexivity. Qed.

Lemma str_of_Z_nonneg (n : Z) : 0 <= n -> str_of_Z n = str_of_nonneg n.
Proof. intros H. unfold str_of_Z. destruct (n <? 0) eqn:E; [apply Z.ltb_lt in E; lia | reflexivity]. Qed.

Lemma _decode_int_enc (f : nat) (n : Z) (rest : bytes) :
  0 <= n ->
  _decode f ((bs "i" ++ str_of_Z n ++ bs "e") ++ rest) =
    if (S (S (List.length (str_of_Z n))) <=? f)%nat then Ret (PInt n, rest) else Diverge.
Proof.
  intros Hn. rewrite (str_of_Z_nonneg n Hn).
  destruct (str_of_nonneg_spec n Hn) as (H1 & H2 & H3).
  remember (str_of_nonneg n) as d eqn:Hd. clear Hd.
  destruct f as [|f]; [reflexivity|].
  change ((bs "i" ++ d ++ bs "e") ++ rest) with ("i"%byte :: (d ++ ["e"%byte]) ++ rest).
  rewrite <- app_assoc. simpl app at 2.
  change (_decode (S f) ("i"%byte :: d ++ "e"%byte :: rest))
    with (decode_int_loop f [] (d ++ "e"%byte :: rest)).
  rewrite decode_int_loop_digits by exact H1. simpl app.
  rewrite (py_int_digits_value d H1 H2), H3. reflexivity.
Qed.

Lemma read_app (b rest : bytes) : read (Z.of_nat (List.length b)) (b ++ rest) = (b, rest).
Proof.
  unfold read. destruct (Z.of_nat (List.length b) <? 0) eqn:E; [apply Z.ltb_lt in E; lia|].
  rewrite Nat2Z.id, firstn_app, skipn_app, firstn_all, skipn_all, Nat.sub_diag.
  simpl. rewrite app_nil_r. reflexivity.
Qed.

Lemma _decode_bytes_enc (f : nat) (b rest : bytes) :
  _decode f (encode_bytes b ++ rest) =
    if (S (List.length (str_of_Z (Z.of_nat (List.length b)))) <=? f)%nat
    then Ret (PBytes b, rest) else Diverge.
Proof.
  unfold encode_bytes. rewrite (str_of_Z_nonneg _ (Nat2Z.is_nonneg _)).
  destruct (str_of_nonneg_spec (Z.of_nat (List.length b)) (Nat2Z.is_nonneg _)) as (H1 & H2 & H3).
  remember (str_of_nonneg (Z.of_nat (List.length b))) as d eqn:Hd. clear Hd.
  destruct d as [|d0 dr]; [contradiction|].
  pose proof H1 as H1'. simpl in H1'. apply andb_prop in H1' as [Hd0 Hdr].
  destruct (digit_not_special d0 Hd0) as (_ & He & Hi & Hl & Hdd).
  destruct f as [|f]; [reflexivity|].
  rewrite <- !app_assoc. simpl app.
  change (_decode (S f) (d0 :: dr ++ ":"%byte :: b ++ rest)) with
    (if bytes_eqb [d0] (bs "e") then Ret (PNone, dr ++ ":"%byte :: b ++ rest)
     else if bytes_eqb [d0] (bs "i") then decode_int_loop f [] (dr ++ ":"%byte :: b ++ rest)
     else if bytes_eqb [d0] (bs "l") then decode_list_loop f f [] (dr ++ ":"%byte :: b ++ rest)
     else if bytes_eqb [d0] (bs "d") then decode_dict_loop f f [] (dr ++ ":"%byte :: b ++ rest)
     else decode_size_loop f [d0] (dr ++ ":"%byte :: b ++ rest)).
  simpl bytes_eqb. rewrite He, Hi, Hl, Hdd. simpl.
  rewrite decode_size_loop_digits by exact Hdr.
  change ([d0] ++ dr) with (d0 :: dr). rewrite (py_int_digits_value _ H1 H2), H3.
  rewrite read_app. reflexivity.
Qed.

Ltac leb_cases :=
  repeat match goal with
         | |- context [(?a <=? ?b)%nat] => destruct (Nat.leb_spec a b)
         end.

Lemma _decode_e (f : nat) (rest : bytes) :
  _decode f ("e"%byte :: rest) = if (1 <=? f)%nat then Ret (PNone, rest) else Diverge.
Proof. destruct f; reflexivity. Qed.

Lemma list_loop_enc (l : list pyval) :
  Forall (fun x => norm_value x <> PNone /\
            exists b N, add_encode x = Ret b /\
              forall f rest, _decode f (b ++ rest) =
                if (N <=? f)%nat then Ret (norm_value x, rest) else Diverge) l ->
  exists body M, add_encode_items l = Ret body /\
    forall f g acc rest,
      decode_list_loop f g acc (body ++ "e"%byte :: rest) =
        if (S (List.length l) <=? g)%nat && (M <=? f)%nat && (1 <=? f)%nat
        then Ret (PList (acc ++ map norm_value l), rest) else Diverge.
Proof.
  induction 1 as [|x l [Hnx (bx & Nx & Hex & Hdx)] _ (body & M & Hel & Hloop)].
  - exists [], 0%nat. split; [reflexivity|]. intros f g acc rest.
    destruct g as [|g]; [reflexivity|]. simpl app.
    simpl decode_list_loop. rewrite _decode_e.
    rewrite app_nil_r. cbn [List.length]. leb_cases; simpl; try reflexivity; exfalso; lia.
  - exists (bx ++ body), (Nat.max Nx M). split.
    { change (add_encode_items (x :: l)) with
        (let* a := add_encode x in let* b := add_encode_items l in Ret (a ++ b)).
      rewrite Hex, Hel. reflexivity. }
    intros f g acc rest. rewrite <- app_assoc.
    destruct g as [|g]; [reflexivity|].
    simpl decode_list_loop. rewrite Hdx.
    destruct (Nat.leb_spec Nx f) as [HN|HN].
    + destruct (norm_value x) eqn:En; [contradiction| | | | |];
        rewrite <- En, Hloop; rewrite <- app_assoc; simpl app;
        leb_cases; simpl; try reflexivity; exfalso; simpl List.length in *; lia.
    + simpl List.length. leb_cases; simpl; try reflexivity; exfalso; lia.
Qed.

Lemma dict_loop_enc (kv : list (pyval * pyval)) :
  Forall (fun kx => is_bytes (fst kx) = true /\
            exists b N, add_encode (snd kx) = Ret b /\
              forall f rest, _decode f (b ++ rest) =
                if (N <=? f)%nat then Ret (norm_value (snd kx), rest) else Diverge) kv ->
  exists body M, encode_items (add_encode_values kv) = Ret body /\
    forall f g acc rest,
      decode_dict_loop f g acc (body ++ "e"%byte :: rest) =
        if (S (List.length kv) <=? g)%nat && (M <=? f)%nat && (1 <=? f)%nat
        then (let* d := dict_of_pairs (acc ++ map norm_item kv) in Ret (d, rest))
        else Diverge.
Proof.
  induction 1 as [|[k x] kv [Hk (bx & Nx & Hex & Hdx)] _ (body & M & Hel & Hloop)].
  - exists [], 0%nat. split; [reflexivity|]. intros f g acc rest.
    destruct g as [|g]; [reflexivity|]. simpl app.
    simpl decode_dict_loop. rewrite _decode_e.
    rewrite app_nil_r. cbn [List.length map].
    leb_cases; simpl; try reflexivity; exfalso; lia.
  - destruct k as [| |kb| | |]; try discriminate Hk. simpl in Hdx, Hex.
    exists (encode_bytes kb ++ bx ++ body),
      (Nat.max (S (List.length (str_of_Z (Z.of_nat (List.length kb))))) (Nat.max Nx M)).
    split.
    { change (add_encode_values ((PBytes kb, x) :: kv)) with
        ((PBytes kb, add_encode x) :: add_encode_values kv).
      cbn [encode_items]. rewrite Hex, Hel. reflexivity. }
    intros f g acc rest. rewrite <- !app_assoc.
    destruct g as [|g]; [reflexivity|].
    simpl decode_dict_loop. rewrite _decode_bytes_enc.
    destruct (Nat.leb_spec (S (List.length (str_of_Z (Z.of_nat (List.length kb))))) f) as [HK|HK].
    + rewrite Hdx. destruct (Nat.leb_spec Nx f) as [HN|HN].
      * rewrite Hloop. rewrite <- app_assoc. simpl app. simpl map.
        leb_cases; simpl; try reflexivity; exfalso; simpl List.length in *; lia.
      * simpl List.length. leb_cases; simpl; try reflexivity; exfalso; lia.
    + simpl List.length. leb_cases; simpl; try reflexivity; exfalso; lia.
Qed.

Lemma norm_value_dict (kv : list (pyval * pyval)) :
  norm_value (PDict kv) = PDict (map norm_item kv).
Proof. reflexivity. Qed.

Lemma add_encode_values_fst (kv : list (pyval * pyval)) :
  map fst (add_encode_values kv) = map fst kv.
Proof. induction kv as [|[k x] kv IH]; [reflexivity|]. simpl. f_equal. exact IH. Qed.

Lemma add_encode_values_sorted (kv : list (pyval * pyval)) :
  keys_sorted (add_encode_values kv) = keys_sorted kv.
Proof.
  induction kv as [|[k x] kv IH]; [reflexivity|].
  destruct kv as [|[k2 x2] kv]; [reflexivity|].
  change (keys_sorted (add_encode_values ((k, x) :: (k2, x2) :: kv)))
    with (key_leb k k2 && keys_sorted (add_encode_values ((k2, x2) :: kv))).
  rewrite IH. reflexivity.
Qed.

Lemma fold_insert_sorted {A} (l : list (pyval * A)) :
  keys_sorted l = true -> fold_right insert_item [] l = l.
Proof.
  induction l as [|[k x] r IH]; intros H; [reflexivity|].
  cbn [fold_right]. destruct r as [|[k2 x2] r]; [reflexivity|].
  change (keys_sorted ((k, x) :: (k2, x2) :: r)) with
    (key_leb k k2 && keys_sorted ((k2, x2) :: r)) in H.
  apply andb_prop in H as [H1 H2]. rewrite (IH H2). simpl. rewrite H1. reflexivity.
Qed.

Lemma sorted_items_sorted {A} (items : list (pyval * A)) :
  forallb is_bytes (map fst items) = true -> keys_sorted items = true ->
  sorted_items items = Ret items.
Proof.
  intros Hb Hs. destruct items as [|a [|b r]]; try reflexivity.
  unfold sorted_items. rewrite Hb. cbn [orb]. rewrite (fold_insert_sorted _ Hs). reflexivity.
Qed.

Lemma keys_distinct_app_new (a r : list (pyval * pyval)) (k v : pyval) :
  keys_distinct (a ++ (k, v) :: r) = true ->
  forallb (fun kx => negb (key_eqb (fst kx) k)) a = true.
Proof.
  induction a as [|[k' v'] a IH]; intros H; [reflexivity|].
  simpl in H. apply andb_prop in H as [H1 H2].
  rewrite existsb_app in H1. simpl in H1.
  simpl. rewrite (IH H2). destruct (key_eqb k' k); [|reflexivity].
  rewrite orb_true_r in H1. discriminate H1.
Qed.

Lemma dict_set_new (acc : list (pyval * pyval)) (k v : pyval) :
  forallb (fun kx => negb (key_eqb (fst kx) k)) acc = true ->
  dict_set acc k v = acc ++ [(k, v)].
Proof.
  induction acc as [|[k' v'] acc IH]; intros H; [reflexivity|].
  simpl in H. apply andb_prop in H as [H1 H2].
  simpl. destruct (key_eqb k' k); [discriminate H1|]. rewrite (IH H2). reflexivity.
Qed.

Lemma dict_of_pairs_aux_distinct (l acc : list (pyval * pyval)) :
  forallb (fun kx => hashable (fst kx)) l = true ->
  keys_distinct (acc ++ l) = true ->
  dict_of_pairs_aux acc l = Ret (PDict (acc ++ l)).
Proof.
  revert acc. induction l as [|[k v] l IH]; intros acc Hh Hd.
  - rewrite app_nil_r. reflexivity.
  - simpl in Hh. apply andb_prop in Hh as [Hk Hh].
    simpl. rewrite Hk. rewrite (dict_set_new _ _ _ (keys_distinct_app_new _ _ _ _ Hd)).
    rewrite IH; [rewrite <- app_assoc; reflexivity | exact Hh |].
    rewrite <- app_assoc. exact Hd.
Qed.

Lemma keys_distinct_norm (kv : list (pyval * pyval)) :
  keys_distinct (map norm_item kv) = keys_distinct kv.
Proof.
  induction kv as [|[k x] kv IH]; [reflexivity|]. simpl. rewrite IH. f_equal. f_equal.
  clear IH. induction kv as [|[k2 x2] kv IH]; [reflexivity|]. simpl. rewrite IH. reflexivity.
Qed.

Lemma map_fst_norm (kv : list (pyval * pyval)) : map fst (map norm_item kv) = map fst kv.
Proof. induction kv as [|[k x] kv IH]; [reflexivity|]. simpl. f_equal. exact IH. Qed.

Lemma forallb_map {A B} (p : B -> bool) (f : A -> B) (l : list A) :
  forallb p (map f l) = forallb (fun x => p (f x)) l.
Proof. induction l as [|x l IH]; [reflexivity|]. simpl. rewrite IH. reflexivity. Qed.

Lemma pv_size_in_list (l : list pyval) (x : pyval) :
  In x l -> (pv_size x < pv_size (PList l))%nat.
Proof.
  intros Hin. simpl. induction l as [|y l IH]; [destruct Hin|].
  destruct Hin as [-> | Hin]; simpl; [lia|]. specialize (IH Hin). lia.
Qed.

Lemma pv_size_in_dict (kv : list (pyval * pyval)) (k x : pyval) :
  In (k, x) kv -> (pv_size x < pv_size (PDict kv))%nat.
Proof.
  intros Hin. simpl. induction kv as [|[k2 x2] kv IH]; [destruct Hin|].
  destruct Hin as [E | Hin]; simpl.
  - inversion E; subst. lia.
  - specialize (IH Hin). lia.
Qed.

Lemma rt_encode_decode_gen (n : nat) (v : pyval) :
  (pv_size v < n)%nat -> rt_value v = true ->
  norm_value v <> PNone /\
  exists b N, add_encode v = Ret b /\
    forall f rest, _decode f (b ++ rest) =
      if (N <=? f)%nat then Ret (norm_value v, rest) else Diverge.
Proof.
  revert v. induction n as [|n IH]; intros v Hs Hrt; [lia|].
  destruct v as [|z|b|s|l|kv]; simpl in Hrt; try discriminate Hrt.
  - split; [discriminate|]. exists (bs "i" ++ str_of_Z z ++ bs "e"), (S (S (List.length (str_of_Z z)))).
    split; [reflexivity|]. intros f rest. apply _decode_int_enc. apply Z.leb_le. exact Hrt.
  - split; [discriminate|]. exists (encode_bytes b), (S (List.length (str_of_Z (Z.of_nat (List.length b))))).
    split; [reflexivity|]. intros f rest. apply _decode_bytes_enc.
  - split; [discriminate|]. exists (encode_bytes s), (S (List.length (str_of_Z (Z.of_nat (List.length s))))).
    split; [reflexivity|]. intros f rest. apply _decode_bytes_enc.
  - split; [discriminate|].
    assert (HF : Forall (fun x => norm_value x <> PNone /\
            exists b N, add_encode x = Ret b /\
              forall f rest, _decode f (b ++ rest) =
                if (N <=? f)%nat then Ret (norm_value x, rest) else Diverge) l).
    { apply Forall_forall. intros x Hin. apply IH.
      - pose proof (pv_size_in_list l x Hin). lia.
      - rewrite forallb_forall in Hrt. apply Hrt, Hin. }
    destruct (list_loop_enc l HF) as (body & M & Hel & Hloop).
    exists (bs "l" ++ body ++ bs "e"), (S (Nat.max (S (List.length l)) (Nat.max M 1))).
    split; [rewrite add_encode_list, Hel; reflexivity|].
    intros f rest. destruct f as [|f]; [reflexivity|].
    change ((bs "l" ++ body ++ bs "e") ++ rest) with ("l"%byte :: ((body ++ bs "e") ++ rest)).
    rewrite <- app_assoc. rewrite _decode_list. simpl app at 2. rewrite Hloop.
    simpl norm_value. leb_cases; simpl; try reflexivity; exfalso; lia.
  - split; [discriminate|].
    apply andb_prop in Hrt as [Hrt Hdist]. apply andb_prop in Hrt as [Hrt Hsort].
    assert (HF : Forall (fun kx => is_bytes (fst kx) = true /\
            exists b N, add_encode (snd kx) = Ret b /\
              forall f rest, _decode f (b ++ rest) =
                if (N <=? f)%nat then Ret (norm_value (snd kx), rest) else Diverge) kv).
    { apply Forall_forall. intros [k x] Hin. rewrite forallb_forall in Hrt.
      specialize (Hrt _ Hin). simpl in Hrt. apply andb_prop in Hrt as [Hk Hx].
      split; [exact Hk|]. refine (proj2 (IH x _ Hx)).
      pose proof (pv_size_in_dict kv k x Hin). lia. }
    assert (Hkb : forallb is_bytes (map fst kv) = true).
    { rewrite forallb_map. apply forallb_forall. intros [k x] Hin.
      rewrite forallb_forall in Hrt. specialize (Hrt _ Hin). simpl in Hrt.
      apply andb_prop in Hrt as [Hk _]. exact Hk. }
    destruct (dict_loop_enc kv HF) as (body & M & Hel & Hloop).
    exists (bs "d" ++ body ++ bs "e"), (S (Nat.max (S (List.length kv)) (Nat.max M 1))).
    split.
    { rewrite add_encode_dict, sorted_items_sorted.
      - simpl. rewrite Hel. reflexivity.
      - rewrite add_encode_values_fst. exact Hkb.
      - rewrite add_encode_values_sorted. exact Hsort. }
    intros f rest. destruct f as [|f]; [reflexivity|].
    change ((bs "d" ++ body ++ bs "e") ++ rest) with ("d"%byte :: ((body ++ bs "e") ++ rest)).
    rewrite <- app_assoc. rewrite _decode_dict. simpl app at 2. rewrite Hloop.
    rewrite norm_value_dict. simpl app.
    unfold dict_of_pairs. rewrite dict_of_pairs_aux_distinct.
    + simpl app. leb_cases; simpl; try reflexivity; exfalso; lia.
    + rewrite <- (forallb_map hashable fst), map_fst_norm.
      rewrite forallb_map in Hkb. rewrite forallb_map.
      apply forallb_forall. intros [k x] Hin. rewrite forallb_forall in Hkb.
      specialize (Hkb _ Hin). destruct k; try discriminate Hkb. reflexivity.
    + simpl. rewrite keys_distinct_norm. exact Hdist.
Qed.











Lemma combine_norm (kw : list (string * pyval)) :
  combine (map fst kw) (map (fun kx => norm_value (snd kx)) kw) =
  map (fun kx => (fst kx, norm_value (snd kx))) kw.
Proof. induction kw as [|[n v] kw IH]; [reflexivity|]. simpl. rewrite IH. reflexivity. Qed.


Lemma digits_value_nonneg (d : bytes) :
  forallb is_digit_byte d = true -> d <> [] -> 0 <= digits_value 0 d.
Proof.
  intros H1 H2. destruct (py_int_digits d) as (t & Ht & Hnn).
  - destruct d; [contradiction|exact H1].
  - rewrite (py_int_digits_value d H1 H2) in Ht. injection Ht as ->. exact Hnn.
Qed.

Lemma decode_size_digits (f : nat) (d s : bytes) :
  forallb is_digit_byte d = true -> d <> [] ->
  _decode f (d ++ ":"%byte :: s) =
    if (S (List.length d) <=? f)%nat
    then Ret (PBytes (firstn (Z.to_nat (digits_value 0 d)) s),
              skipn (Z.to_nat (digits_value 0 d)) s)
    else Diverge.
Proof.
  intros H1 H2. pose proof (digits_value_nonneg d H1 H2) as Hnn.
  destruct d as [|d0 dr]; [contradiction|].
  pose proof H1 as H1'. simpl in H1'. apply andb_prop in H1' as [Hd0 Hdr].
  destruct (digit_not_special d0 Hd0) as (_ & He & Hi & Hl & Hdd).
  destruct f as [|f]; [reflexivity|].
  change (_decode (S f) ((d0 :: dr) ++ ":"%byte :: s)) with
    (if bytes_eqb [d0] (bs "e") then Ret (PNone, dr ++ ":"%byte :: s)
     else if bytes_eqb [d0] (bs "i") then decode_int_loop f [] (dr ++ ":"%byte :: s)
     else if bytes_eqb [d0] (bs "l") then decode_list_loop f f [] (dr ++ ":"%byte :: s)
     else if bytes_eqb [d0] (bs "d") then decode_dict_loop f f [] (dr ++ ":"%byte :: s)
     else decode_size_loop f [d0] (dr ++ ":"%byte :: s)).
  simpl bytes_eqb. rewrite He, Hi, Hl, Hdd. simpl.
  rewrite decode_size_loop_digits by exact Hdr.
  change ([d0] ++ dr) with (d0 :: dr). rewrite (py_int_digits_value _ H1 H2).
  unfold read. destruct (digits_value 0 (d0 :: dr) <? 0) eqn:E; [apply Z.ltb_lt in E; lia|].
  reflexivity.
Qed.

Lemma decode_int_digits (f : nat) (d rest : bytes) :
  forallb is_digit_byte d = true ->
  _decode f ("i"%byte :: d ++ "e"%byte :: rest) =
    if (S (S (List.length d)) <=? f)%nat
    then match d with
         | [] => Raise ValueError
         | _ => Ret (PInt (digits_value 0 d), rest)
         end
    else Diverge.
Proof.
  intros H. destruct f as [|f]; [reflexivity|].
  change (_decode (S f) ("i"%byte :: d ++ "e"%byte :: rest))
    with (decode_int_loop f [] (d ++ "e"%byte :: rest)).
  rewrite decode_int_loop_digits by exact H. simpl app.
  change (S (S (List.length d)) <=? S f)%nat with (S (List.length d) <=? f)%nat.
  destruct (S (List.length d) <=? f)%nat; [|reflexivity].
  destruct d as [|c r]; [reflexivity|].
  rewrite (py_int_digits_value _ H ltac:(discriminate)). reflexivity.
Qed.

Lemma byte_eqb_spec (x y : byte) : reflect (x = y) (Byte.eqb x y).
Proof.
  destruct (Byte.eqb x y) eqn:E; constructor;
    [apply Byte.byte_dec_bl, E | apply Byte.eqb_false, E].
Qed.

Lemma decode_size_loop_no_colon (f : nat) (acc s : bytes) :
  ~ In ":"%byte s -> decode_size_loop f acc s = Diverge.
Proof.
  revert acc s. induction f as [|f IH]; intros acc s Hs; [reflexivity|].
  destruct s as [|c r]; simpl.
  - apply IH. intros [].
  - assert (Hc : Byte.eqb c ":"%byte = false).
    { destruct (byte_eqb_spec c ":"%byte) as [->|]; [exfalso; apply Hs; left; reflexivity|reflexivity]. }
    rewrite Hc. simpl. apply IH. intros Hin. apply Hs. right. exact Hin.
Qed.

Lemma _decode_no_colon (f : nat) (s : bytes) :
  ~ In ":"%byte s ->
  (forall c, hd_error s = Some c -> ~ In c (bs "eild")) ->
  _decode f s = Diverge.
Proof.
  intros Hs Hh. destruct f as [|f]; [reflexivity|].
  destruct s as [|c r].
  - simpl. apply decode_size_loop_no_colon. intros [].
  - specialize (Hh c eq_refl).
    simpl. 
    destruct (byte_eqb_spec c "e"%byte) as [->|He]; [exfalso; apply Hh; simpl; tauto|].
    destruct (byte_eqb_spec c "i"%byte) as [->|Hi]; [exfalso; apply Hh; simpl; tauto|].
    destruct (byte_eqb_spec c "l"%byte) as [->|Hl]; [exfalso; apply Hh; simpl; tauto|].
    destruct (byte_eqb_spec c "d"%byte) as [->|Hd]; [exfalso; apply Hh; simpl; tauto|].
    simpl. apply decode_size_loop_no_colon. intros Hin. apply Hs. right. exact Hin.
Qed.



Lemma In_insert_item {A} (x y : pyval * A) (l : list (pyval * A)) :
  In y (insert_item x l) -> y = x \/ In y l.
Proof.
  induction l as [|z l IH]; simpl.
  - intros [<-|[]]. left. reflexivity.
  - destruct (key_leb (fst x) (fst z)); simpl.
    + intros [<-|H]; [left; reflexivity|right; exact H].
    + intros [<-|H]; [right; left; reflexivity|]. destruct (IH H) as [E|E]; auto.
Qed.

Lemma In_insert_item_r {A} (x y : pyval * A) (l : list (pyval * A)) :
  y = x \/ In y l -> In y (insert_item x l).
Proof.
  induction l as [|z l IH]; simpl.
  - intros [<-|[]]. left. reflexivity.
  - destruct (key_leb (fst x) (fst z)); simpl.
    + intros [<-|H]; [left; reflexivity|right; exact H].
    + intros [<-|[<-|H]]; [right; apply IH; left; reflexivity|left; reflexivity|].
      right. apply IH. right. exact H.
Qed.

Lemma In_fold_insert {A} (l : list (pyval * A)) (y : pyval * A) :
  In y l -> In y (fold_right insert_item [] l).
Proof.
  induction l as [|z l IH]; simpl; [intros []|].
  intros [<-|H]; apply In_insert_item_r; [left; reflexivity|right; exact (IH H)].
Qed.

Lemma sorted_items_In {A} (items items' : list (pyval * A)) (y : pyval * A) :
  sorted_items items = Ret items' -> In y items -> In y items'.
Proof.
  unfold sorted_items. intros H Hin.
  destruct items as [|a [|b r]]; try (injection H as <-; exact Hin).
  destruct (_ || _); [|discriminate]. injection H as <-. exact (In_fold_insert (a :: b :: r) y Hin).
Qed.

Lemma encode_items_keys (items : list (pyval * outcome bytes)) (b : bytes) :
  encode_items items = Ret b -> forall k o, In (k, o) items -> is_bytes k = true.
Proof.
  revert b. induction items as [|[k0 o0] r IH]; intros b H k o Hin; [destruct Hin|].
  simpl in H. destruct k0; try discriminate.
  destruct o0 as [vb| |]; try discriminate. simpl in H.
  destruct (encode_items r) as [rb| |] eqn:Hr; try discriminate.
  destruct Hin as [E|Hin]; [injection E as <- _; reflexivity|].
  exact (IH rb eq_refl k o Hin).
Qed.

Lemma In_add_encode_values (kv : list (pyval * pyval)) (k x : pyval) :
  In (k, x) kv -> In (k, add_encode x) (add_encode_values kv).
Proof.
  induction kv as [|[k0 x0] kv IH]; simpl; [intros []|].
  intros [E|H]; [injection E as -> ->; left; reflexivity|right; exact (IH H)].
Qed.


Lemma send_keeps_commands (st : client) (name : string) (args : list pyval)
  (kwargs : list (string * pyval)) :
  let st' := snd (send st name args kwargs) in
  cl_command_id st' = cl_command_id st /\
  cl_command_events st' = cl_command_events st /\
  cl_objects st' = cl_objects st /\
  cl_identity st' = cl_identity st /\ cl_identity_event st' = cl_identity_event st.
Proof.
  unfold send. destruct (create name args kwargs) as [p| |]; simpl; [|repeat split..].
  destruct (cl_running st); [|repeat split].
  destruct (as_bytes p); repeat split.
Qed.

Lemma command_state (st : client) (name : string) (args : list pyval)
  (kwargs : list (string * pyval)) :
  let '(r, st2) := command st name args kwargs in
  cl_command_id st2 = cl_command_id st + 1 /\
  cl_command_events st2 =
    cl_command_events st ++ [(cl_command_id st + 1, List.length (cl_objects st))] /\
  cl_objects st2 = cl_objects st ++ [mk_command_result name PNone false] /\
  (forall ref, r = Ret ref -> ref = List.length (cl_objects st)).
Proof.
  unfold command.
  match goal with |- context [send ?s ?n ?a ?k] =>
    pose proof (send_keeps_commands s n a k) as Hk; destruct (send s n a k) as [r st2] end.
  simpl in Hk. destruct Hk as (H1 & H2 & H3 & _).
  destruct r; simpl; rewrite H1, H2, H3; (split; [reflexivity|]); (split; [reflexivity|]);
    (split; [reflexivity|]); intros ref H; [injection H as <-; reflexivity|discriminate..].
Qed.

Lemma pop_command_absent {A} (l : list (Z * A)) (k : Z) :
  forallb (fun e => fst e <? k) l = true -> pop_command l k = None.
Proof.
  induction l as [|[k' v] l IH]; intros H; [reflexivity|].
  simpl in H. apply andb_prop in H as [H1 H2]. apply Z.ltb_lt in H1.
  simpl. replace (k' =? k) with false by (symmetry; apply Z.eqb_neq; lia).
  rewrite (IH H2). reflexivity.
Qed.

Lemma pop_command_last {A} (l : list (Z * A)) (k : Z) (v : A) :
  forallb (fun e => fst e <? k) l = true -> pop_command (l ++ [(k, v)]) k = Some (v, l).
Proof.
  induction l as [|[k' w] l IH]; intros H; simpl; [rewrite Z.eqb_refl; reflexivity|].
  simpl in H. apply andb_prop in H as [H1 H2]. apply Z.ltb_lt in H1.
  replace (k' =? k) with false by (symmetry; apply Z.eqb_neq; lia).
  rewrite (IH H2). reflexivity.
Qed.

Lemma nth_error_replace_nth {A} (l : list A) (n m : nat) (x : A) :
  nth_error (replace_nth l n x) m =
    if Nat.eqb n m then (if (n <? List.length l)%nat then Some x else None)
    else nth_error l m.
Proof.
  revert n m. induction l as [|y l IH]; intros n m.
  - destruct n, m; simpl; try reflexivity; destruct (Nat.eqb _ _); reflexivity.
  - destruct n as [|n], m as [|m]; simpl; try reflexivity.
    rewrite IH. destruct (Nat.eqb n m); [|reflexivity].
      destruct (Nat.ltb_spec n (List.length l)), (Nat.ltb_spec (S n) (S (List.length l)));
        try reflexivity; lia.
Qed.

Lemma forallb_le_lt {A} (l : list (Z * A)) (k : Z) :
  forallb (fun e => fst e <=? k) l = true -> forallb (fun e => fst e <? k + 1) l = true.
Proof.
  intros H. apply forallb_forall. intros e He. rewrite forallb_forall in H.
  specialize (H e He). apply Z.leb_le in H. apply Z.ltb_lt. lia.
Qed.

Lemma command_result_set_nth (st : client) (ref m : nat) (v : pyval) :
  nth_error (cl_objects (command_result_set st ref v)) m =
    if Nat.eqb ref m then
      match nth_error (cl_objects st) ref with
      | Some cr => Some (mk_command_result (cr_name cr) v true)
      | None => None
      end
    else nth_error (cl_objects st) m.
Proof.
  unfold command_result_set.
  destruct (nth_error (cl_objects st) ref) as [cr|] eqn:E; simpl.
  - rewrite nth_error_replace_nth.
    assert (Hl : (ref < List.length (cl_objects st))%nat)
      by (apply nth_error_Some; rewrite E; discriminate).
    destruct (Nat.eqb_spec ref m) as [<-|]; [|reflexivity].
    destruct (Nat.ltb_spec ref (List.length (cl_objects st))); [reflexivity|lia].
  - destruct (Nat.eqb_spec ref m) as [<-|]; [exact E|reflexivity].
Qed.

Lemma command_result_set_events (st : client) (ref : nat) (v : pyval) :
  cl_command_events (command_result_set st ref v) = cl_command_events st.
Proof. unfold command_result_set. destruct (nth_error _ _); reflexivity. Qed.

(** X13: When no pending id exceeds [command_id], a response to a new command removes its entry and stores the result in its [CommandResult] with the event set; a second response with the same id raises UnboundLocalError and changes nothing. *)
Theorem command_response (st : client) (name : string) (args : list pyval)
  (kwargs : list (string * pyval)) (v w : pyval) :
  forallb (fun e => fst e <=? cl_command_id st) (cl_command_events st) = true ->
  let '(_, st2) := command st name args kwargs in
  let '(r3, st3) :=
    on_command [("command_id", PInt (cl_command_id st + 1)); ("result", v)]%string st2 in
  let '(r4, st4) :=
    on_command [("command_id", PInt (cl_command_id st + 1)); ("result", w)]%string st3 in
  r3 = Ret PNone /\
  cl_command_events st3 = cl_command_events st /\
  nth_error (cl_objects st3) (List.length (cl_objects st)) =
    Some (mk_command_result name v true) /\
  r4 = Raise UnboundLocalError /\
  cl_command_events st4 = cl_command_events st /\
  cl_objects st4 = cl_objects st3.
Proof.
  intros Hinv. pose proof (command_state st name args kwargs) as Hc.
  destruct (command st name args kwargs) as [r st2]. destruct Hc as (H1 & H2 & H3 & _).
  pose proof (forallb_le_lt _ _ Hinv) as Hlt.
  unfold on_command at 1. cbn - [command_result_set].
  rewrite H2, (pop_command_last _ _ _ Hlt).
  unfold on_command. cbn - [command_result_set].
  rewrite !command_result_set_events. simpl cl_command_events.
  rewrite (pop_command_absent _ _ Hlt). simpl.
  split; [reflexivity|]. split; [reflexivity|].
  split; [|repeat split].
  rewrite command_result_set_nth, Nat.eqb_refl. simpl cl_objects. rewrite H3.
  rewrite nth_error_app2, Nat.sub_diag by lia. reflexivity.
rewrite command_result_set_events. reflexivity.
Qed.

Lemma replace_nth_length {A} (l : list A) (n : nat) (x : A) :
  List.length (replace_nth l n x) = List.length l.
Proof.
  revert n. induction l as [|y l IH]; intros [|n]; simpl; try reflexivity. rewrite IH. reflexivity.
Qed.

Lemma command_result_set_length (st : client) (ref : nat) (v : pyval) :
  List.length (cl_objects (command_result_set st ref v)) = List.length (cl_objects st).
Proof.
  unfold command_result_set. destruct (nth_error _ _); [|reflexivity].
  simpl. apply replace_nth_length.
Qed.

Lemma exit_loop_spec (n : nat) (st : client) :
  List.length (cl_command_events st) = n ->
  Forall (fun e => (snd e < List.length (cl_objects st))%nat) (cl_command_events st) ->
  let st' := exit_loop n st in
  cl_command_events st' = [] /\
  (forall id ref, In (id, ref) (cl_command_events st) ->
   exists cr, nth_error (cl_objects st') ref = Some cr /\
     cr_result cr = PNone /\ cr_event cr = true) /\
  (forall ref, ~ In ref (map snd (cl_command_events st)) ->
   nth_error (cl_objects st') ref = nth_error (cl_objects st) ref).
Proof.
  revert st. induction n as [|n IH]; intros st Hn Hf.
  - destruct (cl_command_events st) eqn:E; [|discriminate Hn].
    simpl. rewrite E. split; [reflexivity|]. split; [intros id ref []|]. reflexivity.
  - simpl.
    destruct (rev (cl_command_events st)) as [|[id ref] r] eqn:Er.
    { apply (f_equal (@rev _)) in Er. rewrite rev_involutive in Er. rewrite Er in Hn.
      discriminate Hn. }
    assert (Ee : cl_command_events st = rev r ++ [(id, ref)]).
    { rewrite <- (rev_involutive (cl_command_events st)), Er. reflexivity. }
    rewrite Ee in Hn, Hf. rewrite length_app in Hn. simpl in Hn.
    apply Forall_app in Hf as [Hfr Hfl]. inversion Hfl as [|? ? Href _]; subst. simpl in Href.
    set (s1 := command_result_set (with_command_events st (rev r)) ref PNone).
    assert (Hs1e : cl_command_events s1 = rev r)
      by (unfold s1; rewrite command_result_set_events; reflexivity).
    assert (Hs1l : List.length (cl_objects s1) = List.length (cl_objects st))
      by (unfold s1; rewrite command_result_set_length; reflexivity).
    assert (Hs1n : forall m, nth_error (cl_objects s1) m =
              if Nat.eqb ref m then
                match nth_error (cl_objects st) ref with
                | Some cr => Some (mk_command_result (cr_name cr) PNone true)
                | None => None
                end
              else nth_error (cl_objects st) m)
      by (intros m; unfold s1; rewrite command_result_set_nth; reflexivity).
    destruct (IH s1) as (I1 & I2 & I3).
    { rewrite Hs1e. lia. }
    { rewrite Hs1e, Hs1l. exact Hfr. }
    rewrite Ee. split; [exact I1|]. split.
    + intros id' ref' Hin. apply in_app_or in Hin as [Hin|[E|[]]].
      * apply I2 with id'. rewrite Hs1e. exact Hin.
      * injection E as <- <-.
        destruct (in_dec Nat.eq_dec ref (map snd (cl_command_events s1))) as [Hin|Hnin].
        -- apply in_map_iff in Hin as [[id2 ref2] [E2 Hin]]. simpl in E2. subst ref2.
           exact (I2 id2 ref Hin).
        -- rewrite (I3 ref Hnin), Hs1n, Nat.eqb_refl.
           destruct (nth_error (cl_objects st) ref) as [cr|] eqn:Ec.
           ++ eexists. split; [reflexivity|]. split; reflexivity.
           ++ apply nth_error_None in Ec. lia.
    + intros ref' Hnin. rewrite map_app in Hnin. simpl in Hnin.
      rewrite I3.
      * rewrite Hs1n. destruct (Nat.eqb_spec ref ref') as [<-|]; [|reflexivity].
        exfalso. apply Hnin. apply in_or_app. right. left. reflexivity.
      * rewrite Hs1e. intros Hin. apply Hnin. apply in_or_app. left. exact Hin.
Qed.

(** X14: The loop of [__exit__] empties [command_events]; every [CommandResult] that was pending then makes [get] raise [CommandError], and the other results are left as they were. *)
Theorem exit_fails_pending (st : client) :
  Forall (fun e => (snd e < List.length (cl_objects st))%nat) (cl_command_events st) ->
  let st' := exit_commands st in
  cl_command_events st' = [] /\
  (forall id ref, In (id, ref) (cl_command_events st) ->
   exists cr, nth_error (cl_objects st') ref = Some cr /\
     command_result_get cr = Raise CommandError) /\
  (forall ref, ~ In ref (map snd (cl_command_events st)) ->
   nth_error (cl_objects st') ref = nth_error (cl_objects st) ref).
Proof.
  intros Hf. unfold exit_commands.
  destruct (exit_loop_spec _ st eq_refl Hf) as (H1 & H2 & H3).
  split; [exact H1|]. split; [|exact H3].
  intros id ref Hin. destruct (H2 id ref Hin) as (cr & Hcr & Hr & He).
  exists cr. split; [exact Hcr|]. unfold command_result_get. rewrite He, Hr. reflexivity.
Qed.

Lemma _decode_S (f : nat) (s : bytes) :
  _decode (S f) s =
    let (obj_type, s1) := read 1 s in
    if bytes_eqb obj_type (bs "e") then Ret (PNone, s1)
    else if bytes_eqb obj_type (bs "i") then decode_int_loop f [] s1
    else if bytes_eqb obj_type (bs "l") then decode_list_loop f f [] s1
    else if bytes_eqb obj_type (bs "d") then decode_dict_loop f f [] s1
    else decode_size_loop f obj_type s1.
Proof. reflexivity. Qed.

Lemma decode_int_loop_raises (f : nat) (acc s : bytes) (e : exn) :
  decode_int_loop f acc s = Raise e -> decode_exn e.
Proof.
  revert acc s. induction f as [|f IH]; intros acc s H; [discriminate|].
  cbn [decode_int_loop] in H. destruct (read 1 s) as [c s'].
  destruct (negb (bytes_isdigit c)); [|exact (IH _ _ H)].
  destruct (negb (bytes_eqb c (bs "e"))); [injection H as <-; left; reflexivity|].
  destruct (py_int acc); [discriminate|injection H as <-; right; left; reflexivity].
Qed.

Lemma decode_size_loop_raises (f : nat) (acc s : bytes) (e : exn) :
  decode_size_loop f acc s = Raise e -> decode_exn e.
Proof.
  revert acc s. induction f as [|f IH]; intros acc s H; [discriminate|].
  cbn [decode_size_loop] in H. destruct (read 1 s) as [c s'].
  destruct (bytes_eqb c (bs ":")); [|exact (IH _ _ H)].
  destruct (py_int acc) as [n|]; [destruct (read n s'); discriminate|].
  injection H as <-. right; left; reflexivity.
Qed.

Lemma dict_of_pairs_aux_raises (acc l : list (pyval * pyval)) (e : exn) :
  dict_of_pairs_aux acc l = Raise e -> e = TypeError.
Proof.
  revert acc. induction l as [|[k v] l IH]; intros acc H; [discriminate|].
  simpl in H. destruct (hashable k); [exact (IH _ H)|injection H as <-; reflexivity].
Qed.

Lemma decode_list_loop_raises (f g : nat) (acc : list pyval) (s : bytes) (e : exn) :
  (forall s', _decode f s' = Raise e -> decode_exn e) ->
  decode_list_loop f g acc s = Raise e -> decode_exn e.
Proof.
  intros Hf. revert acc s. induction g as [|g IH]; intros acc s H; [discriminate|].
  simpl in H. destruct (_decode f s) as [[v s']| |] eqn:E.
  - destruct v; try exact (IH _ _ H). discriminate.
  - injection H as ->. exact (Hf s E).
  - discriminate.
Qed.

Lemma decode_dict_loop_raises (f g : nat) (acc : list (pyval * pyval)) (s : bytes) (e : exn) :
  (forall s', _decode f s' = Raise e -> decode_exn e) ->
  decode_dict_loop f g acc s = Raise e -> decode_exn e.
Proof.
  intros Hf. revert acc s. induction g as [|g IH]; intros acc s H; [discriminate|].
  simpl in H. destruct (_decode f s) as [[k s']| |] eqn:E.
  - destruct k;
      try (destruct (_decode f s') as [[v s'']| |] eqn:E2;
           [exact (IH _ _ H)|injection H as ->; exact (Hf s' E2)|discriminate]).
    unfold dict_of_pairs in H.
    destruct (dict_of_pairs_aux [] acc) eqn:Ed; try discriminate.
    injection H as ->. right; right. exact (dict_of_pairs_aux_raises _ _ _ Ed).
  - injection H as ->. exact (Hf s E).
  - discriminate.
Qed.

Lemma _decode_raises (f : nat) (s : bytes) (e : exn) :
  _decode f s = Raise e -> decode_exn e.
Proof.
  revert s. induction f as [|f IH]; intros s H; [discriminate|].
  rewrite _decode_S in H. destruct (read 1 s) as [t s1].
  destruct (bytes_eqb t (bs "e")); [discriminate|].
  destruct (bytes_eqb t (bs "i")); [exact (decode_int_loop_raises _ _ _ _ H)|].
  destruct (bytes_eqb t (bs "l")); [exact (decode_list_loop_raises f f [] s1 e (IH) H)|].
  destruct (bytes_eqb t (bs "d")); [exact (decode_dict_loop_raises f f [] s1 e (IH) H)|].
  exact (decode_size_loop_raises _ _ _ _ H).
Qed.

Lemma check_attributes_raises (c : packet_class) (attrs : list (string * pytype))
  (params : list (string * pyval)) (e : exn) :
  check_attributes c attrs params = Raise e -> construct_error c = Raise e.
Proof.
  revert params. induction attrs as [|[name t] r IH]; intros params H; [discriminate|].
  simpl in H. destruct (str_lookup params name) as [v|]; [|exact H].
  destruct v; simpl in H;
    match type of H with
    | context [isinstance ?w t] => destruct (isinstance w t); [exact (IH _ H)|exact H]
    end.
Qed.

Lemma construct_raises (c : packet_class) (args : list pyval) (kwargs : list (string * pyval))
  (e : exn) :
  construct c args kwargs = Raise e -> e = AttributeError \/ e = PacketFormatError.
Proof.
  unfold construct. intros H.
  destruct (check_attributes c (attributes c) _) eqn:Hc; try discriminate.
  injection H as ->. apply check_attributes_raises in Hc. unfold construct_error in Hc.
  destruct (repr_reads_attributes c); injection Hc as <-; auto.
Qed.

(** X10: When [from_bytes] raises, the exception is the packet module's PacketFormatError or UnknownPacketError, or a ValueError, TypeError or AttributeError, and [on_binary] lets it propagate without changing the client. *)
Theorem on_binary_parse_errors (fuel : nat) (data : bytes) (st : client) (e : exn) :
  from_bytes fuel data = Raise e ->
  (e = PacketFormatError \/ e = UnknownPacketError \/ e = ValueError \/
   e = TypeError \/ e = AttributeError) /\
  on_binary fuel data st = (Raise e, st).
Proof.
  intros H.
  assert (He : e = PacketFormatError \/ e = UnknownPacketError \/ e = ValueError \/
               e = TypeError \/ e = AttributeError).
  { unfold from_bytes in H.
    destruct (negb (starts_with (bs "l") data)); [injection H as <-; auto|].
    unfold decode in H. destruct (_decode fuel data) as [[v rest]| e' |] eqn:Hd.
    - simpl in H. destruct v as [| | | |l|]; try (injection H as <-; tauto).
      destruct l as [|v body]; [injection H as <-; tauto|].
      destruct v; try (injection H as <-; tauto).
      destruct (registry_get z) as [c|]; [|injection H as <-; tauto].
      destruct (construct_raises _ _ _ _ H) as [-> | ->]; tauto.
    - simpl in H. destruct (_decode_raises _ _ _ Hd) as [-> | [-> | ->]];
        injection H as <-; tauto.
    - discriminate. }
  split; [exact He|]. unfold on_binary. rewrite H.
  destruct He as [-> | [-> | [-> | [-> | ->]]]]; reflexivity.
Qed.

(** X11: A [set_identity] frame received by [on_binary] (with enough fuel) returns normally, makes [get_identity] return the identity it carries, and leaves the pending commands untouched. *)
Theorem set_identity_frame (i : bytes) (st : client) :
  exists N, forall fuel, (N <= fuel)%nat ->
  let '(r, st') := on_binary fuel (bs "li9e" ++ encode_bytes i ++ bs "e") st in
  r = Ret PNone /\ get_identity st' = Ret (PBytes i) /\
  cl_command_events st' = cl_command_events st /\ cl_objects st' = cl_objects st.
Proof.
  destruct (rt_encode_decode_gen 5 (PList [PInt 9; PBytes i]) ltac:(simpl; lia) eq_refl)
    as (_ & b & N & Hb & Hd).
  assert (Eb : b = bs "li9e" ++ encode_bytes i ++ bs "e").
  { cbn in Hb. injection Hb as <-. rewrite app_nil_r. reflexivity. }
  subst b. exists N. intros fuel Hf.
  assert (Hdec : decode fuel (bs "li9e" ++ encode_bytes i ++ bs "e") = Ret (PList [PInt 9; PBytes i])).
  { unfold decode. specialize (Hd fuel []). rewrite app_nil_r in Hd. rewrite Hd.
    destruct (Nat.leb_spec N fuel); [reflexivity|lia]. }
  unfold on_binary, from_bytes. rewrite Hdec. cbn.
  repeat split.
Qed.

Lemma str_lookup_In {A} (l : list (string * A)) (k : string) (v : A) :
  str_lookup l k = Some v -> In (k, v) l.
Proof.
  induction l as [|[k' v'] l IH]; simpl; [discriminate|].
  destruct (String.eqb_spec k' k) as [<-|]; [intros H; injection H as <-; left; reflexivity|].
  intros H. right. exact (IH H).
Qed.

(** X9: For a known packet name, [create] raises [ValueError] for every argument list exactly when the name is [request_open] or [request_close_all], the two names no packet class registers. *)
Theorem create_unregistered_names (name : string) (t : Z) :
  process_packet_type name = Ret t ->
  ((forall args kwargs, create name args kwargs = Raise ValueError) <->
   (name = "request_open"%string \/ name = "request_close_all"%string)).
Proof.
  unfold process_packet_type. intros H.
  destruct (str_lookup PacketType name) as [t'|] eqn:E; [|discriminate].
  injection H as ->. apply str_lookup_In in E.
  unfold create, process_packet_type.
  simpl in E; repeat (destruct E as [E|E]; [injection E as <- <-; simpl; split;
    [ intros H; first [ left; reflexivity | right; reflexivity
                      | specialize (H [] []); vm_compute in H; discriminate H ]
    | intros [E|E]; first [ discriminate E | reflexivity ] ] |]).
  destruct E.
Qed.

(** X15: On a running client, [log] of a text sends one [command_broadcast_log] frame carrying the next command id and the text's bytes, and returns the new pending result. *)
Theorem log_sends (st : client) (s : bytes) :
  cl_running st = true ->
  let '(r, st') := log st (PStr s) in
  r = Ret (List.length (cl_objects st)) /\
  cl_sent st' = cl_sent st ++
    [bs "li104ei" ++ str_of_Z (cl_command_id st + 1) ++ bs "e" ++ encode_bytes s ++ bs "e"] /\
  cl_command_events st' =
    cl_command_events st ++ [(cl_command_id st + 1, List.length (cl_objects st))].
Proof.
  intros Hr. unfold log, command, send. cbn. rewrite Hr. cbn.
  split; [reflexivity|]. split; [|reflexivity].
  rewrite !app_nil_r, <- !app_assoc. cbn [app]. rewrite <- !app_assoc. reflexivity.
Qed.

Lemma In_fold_insert_rev {A} (l : list (pyval * A)) (y : pyval * A) :
  In y (fold_right insert_item [] l) -> In y l.
Proof.
  induction l as [|z l IH]; simpl; [intros []|].
  intros H. destruct (In_insert_item _ _ _ H) as [<-|H']; [left; reflexivity|right; exact (IH H')].
Qed.

Lemma sorted_items_str {A} (items : list (pyval * A)) :
  forallb (fun kx => is_str (fst kx)) items = true -> items <> [] ->
  exists h t, sorted_items items = Ret (h :: t) /\ is_str (fst h) = true.
Proof.
  intros Hs Hne. destruct items as [|a [|b r]]; [contradiction| |].
  - exists a, []. split; [reflexivity|]. simpl in Hs. apply andb_prop in Hs as [Ha _]. exact Ha.
  - assert (Hb : forallb is_bytes (map fst (a :: b :: r)) = false).
    { simpl in Hs |- *. apply andb_prop in Hs as [Ha _]. destruct (fst a); try discriminate Ha.
      reflexivity. }
    assert (Hstr : forallb is_str (map fst (a :: b :: r)) = true).
    { rewrite forallb_map. exact Hs. }
    unfold sorted_items. rewrite Hb, Hstr. simpl orb.
    destruct (fold_right insert_item [] (a :: b :: r)) as [|h t] eqn:E.
    + exfalso. assert (Hin : In a (fold_right insert_item [] (a :: b :: r)))
        by (apply In_fold_insert; left; reflexivity).
      rewrite E in Hin. destruct Hin.
    + exists h, t. split; [reflexivity|].
      assert (Hin : In h (a :: b :: r)) by (apply In_fold_insert_rev; rewrite E; left; reflexivity).
      rewrite forallb_forall in Hs. exact (Hs h Hin).
Qed.

Lemma add_encode_str_keys (kv : list (pyval * pyval)) :
  forallb (fun kx => is_str (fst kx)) kv = true -> kv <> [] ->
  add_encode (PDict kv) = Raise EncodeError.
Proof.
  intros Hs Hne. rewrite add_encode_dict.
  assert (Hs' : forallb (fun kx => is_str (fst kx)) (add_encode_values kv) = true).
  { rewrite <- (forallb_map is_str fst), add_encode_values_fst, forallb_map. exact Hs. }
  assert (Hne' : add_encode_values kv <> []).
  { destruct kv as [|[k x] kv]; [contradiction|]. discriminate. }
  destruct (sorted_items_str _ Hs' Hne') as ([k o] & t & E & Hk). rewrite E. simpl.
  destruct k; try discriminate Hk. reflexivity.
Qed.

(** X16: On a running client, [send_instruction] with at least one keyword parameter raises [EncodeError] because the data dict is keyed by text; nothing is sent but the command stays pending. *)
Theorem send_instruction_with_params (st : client) (node : bytes)
  (params : list (string * pyval)) :
  cl_running st = true -> params <> [] ->
  let '(r, st') := send_instruction st (PBytes node) params in
  r = Raise EncodeError /\
  cl_sent st' = cl_sent st /\
  cl_command_events st' =
    cl_command_events st ++ [(cl_command_id st + 1, List.length (cl_objects st))].
Proof.
  intros Hr Hne.
  set (D := map (fun kv => (PStr (bs (fst kv)), snd kv)) params).
  assert (HD : add_encode (PDict D) = Raise EncodeError).
  { apply add_encode_str_keys.
    - subst D. rewrite forallb_map. apply forallb_forall. intros kv _. reflexivity.
    - subst D. destruct params; [contradiction|discriminate]. }
  assert (Hab : forall id, as_bytes (mk_packet CommandSendInstruction
                 [("command_id", PInt id); ("node", PBytes node); ("data", PDict D)]%string)
                = Raise EncodeError).
  { intros id. unfold as_bytes, generic_as_bytes, encode. cbn -[add_encode].
    rewrite add_encode_list. unfold add_encode_items. cbn -[add_encode].
    rewrite HD. reflexivity. }
  unfold send_instruction, command, send. fold D. cbn -[as_bytes]. rewrite Hr, Hab.
  repeat split.
Qed.

(** X17: On a running client with byte-string credentials, [on_startup] sends exactly two frames: [request_join], then [request_login] carrying the username and the password. *)
Theorem on_startup_frames (st : client) (u p : bytes) :
  cl_running st = true ->
  let '(r, st') := on_startup (PBytes u) (PBytes p) st in
  r = Ret PNone /\
  cl_sent st' = cl_sent st ++ [bs "li1ee"; bs "li15e" ++ encode_bytes u ++ encode_bytes p ++ bs "e"] /\
  cl_command_events st' = cl_command_events st.
Proof.
  intros Hr. unfold on_startup, send. cbn -[encode_bytes]. rewrite Hr. cbn -[encode_bytes].
  split; [reflexivity|]. split; [|reflexivity].
  rewrite <- app_assoc. cbn [app]. rewrite !app_nil_r, <- !app_assoc. reflexivity.
Qed.

Lemma rt_value_gen (v : pyval) :
  rt_value v = true ->
  norm_value v <> PNone /\
  exists b N, add_encode v = Ret b /\
    forall f rest, _decode f (b ++ rest) =
      if (N <=? f)%nat then Ret (norm_value v, rest) else Diverge.
Proof. apply (rt_encode_decode_gen (S (pv_size v))). lia. Qed.

(** X1: Encoding a value with no [None], no negative integer and only sorted, duplicate-free bytes-keyed dicts succeeds, and decoding the result, with any bytes appended, gives the value back (text as its UTF-8 bytes) once the fuel suffices. *)
Theorem encode_decode_round_trip (v : pyval) :
  rt_value v = true ->
  exists b N, encode v = Ret b /\
    forall f extra, decode f (b ++ extra) =
      if (N <=? f)%nat then Ret (norm_value v) else Diverge.
Proof.
  intros Hrt. destruct (rt_value_gen v Hrt) as (_ & b & N & Hb & Hd).
  exists b, N. split; [exact Hb|]. intros f extra. unfold decode. rewrite Hd.
  destruct (N <=? f)%nat; reflexivity.
Qed.


(** X6: A dict with a key that is not a byte string is never encoded: [encode] does not return bytes for it. *)
Theorem encode_dict_key_not_bytes (kv : list (pyval * pyval)) (k x : pyval) :
  In (k, x) kv -> is_bytes k = false -> forall b, encode (PDict kv) <> Ret b.
Proof.
  intros Hin Hk b Hb. unfold encode in Hb. rewrite add_encode_dict in Hb.
  destruct (sorted_items (add_encode_values kv)) as [items| |] eqn:Hs; try discriminate Hb.
  simpl in Hb. destruct (encode_items items) as [body| |] eqn:He; try discriminate Hb.
  pose proof (sorted_items_In _ _ _ Hs (In_add_encode_values kv k x Hin)) as Hin'.
  rewrite (encode_items_keys items body He k _ Hin') in Hk. discriminate Hk.
Qed.

(** X12: [command] increments [command_id], adds an entry for the new id to [command_events] and creates its [CommandResult] whether or not the packet is then built and sent. *)
Theorem command_registers_pending (st : client) (name : string) (args : list pyval)
  (kwargs : list (string * pyval)) :
  let '(_, st2) := command st name args kwargs in
  cl_command_id st2 = cl_command_id st + 1 /\
  cl_command_events st2 =
    cl_command_events st ++ [(cl_command_id st + 1, List.length (cl_objects st))] /\
  cl_objects st2 = cl_objects st ++ [mk_command_result name PNone false].
Proof.
  pose proof (command_state st name args kwargs) as Hc.
  destruct (command st name args kwargs) as [r st2]. destruct Hc as (H1 & H2 & H3 & _).
  auto.
Qed.

(** X18: Before an identity has been received, [set_meta] and [get_meta] raise [NoIdentity] and leave the client unchanged: no command id is used and nothing is sent. *)
Theorem meta_requires_identity (st : client) (d k v : pyval) :
  cl_identity_event st = false ->
  set_meta st d k v = (Raise NoIdentity, st) /\ get_meta st d = (Raise NoIdentity, st).
Proof. intros H. unfold set_meta, get_meta, get_identity. rewrite H. split; reflexivity. Qed.

(** X19: After [handle_set_identitiy] has stored an identity, [set_meta] on a running client sends a [command_set_meta] frame whose requester is that identity, followed by the node, key and value. *)
Theorem set_meta_after_identity (st : client) (i d k v : bytes) :
  cl_running st = true ->
  let '(_, st1) := handle_set_identitiy [("identity"%string, PBytes i)] st in
  let '(r, st2) := set_meta st1 (PBytes d) (PBytes k) (PBytes v) in
  r = Ret (List.length (cl_objects st)) /\
  cl_sent st2 = cl_sent st ++
    [bs "li110ei" ++ str_of_Z (cl_command_id st + 1) ++ bs "e" ++ encode_bytes i ++
     encode_bytes d ++ encode_bytes k ++ encode_bytes v ++ bs "e"].
Proof.
  intros Hr. unfold handle_set_identitiy, set_meta, get_identity, command, send.
  cbn -[encode_bytes str_of_Z]. rewrite Hr. cbn -[encode_bytes str_of_Z].
  split; [reflexivity|]. change (str_of_Z 110) with ["1"; "1"; "0"]%byte.
  rewrite !app_nil_r. cbn [app]. rewrite <- !app_assoc. cbn [app]. reflexivity.
Qed.

Lemma zip_params_app (args extra : list pyval) (attrs : list (string * pytype)) :
  (List.length attrs <= List.length args)%nat ->
  zip_params (args ++ extra) attrs = zip_params args attrs.
Proof.
  revert args. induction attrs as [|[name t] attrs IH]; intros args H.
  - destruct args, extra; reflexivity.
  - destruct args as [|a args]; simpl in H; [lia|]. simpl. rewrite IH by lia. reflexivity.
Qed.

(** X8: [__init__] ignores positional arguments beyond the class's attributes: a packet built with extra trailing arguments is the packet built without them. *)
Theorem construct_extra_args (c : packet_class) (args extra : list pyval)
  (kwargs : list (string * pyval)) :
  (List.length (attributes c) <= List.length args)%nat ->
  construct c (args ++ extra) kwargs = construct c args kwargs.
Proof. intros H. unfold construct. rewrite zip_params_app by exact H. reflexivity. Qed.

(** X20: [name_node] with a text name behaves exactly as with the name's UTF-8 bytes, since [__init__] encodes text attributes. *)
Theorem name_node_text (st : client) (node : pyval) (name : bytes) :
  name_node st node (PStr name) = name_node st node (PBytes name).
Proof. destruct node; reflexivity. Qed.

(** X21: [get_identities] with a [nodes] argument that is not a list raises the packet module's PacketFormatError when the packet is built; nothing is sent but the command stays pending. *)
Theorem get_identities_not_list (st : client) (nodes : pyval) :
  (forall l, nodes <> PList l) ->
  let '(r, st') := get_identities st nodes in
  r = Raise PacketFormatError /\ cl_sent st' = cl_sent st /\
  cl_command_events st' =
    cl_command_events st ++ [(cl_command_id st + 1, List.length (cl_objects st))].
Proof.
  intros H. destruct nodes as [| | | |l|]; [| | | |exfalso; exact (H l eq_refl)|];
    unfold get_identities, command, send; cbn; repeat split.
Qed.

(** X2: On [<digits>:<rest>] with a non-empty run of digits, [decode] returns the first [int(digits)] bytes of [rest]: leading zeros are accepted and a [rest] shorter than announced gives a shorter byte string, not an error. *)
Theorem decode_bytes_prefix (f : nat) (d s : bytes) :
  forallb is_digit_byte d = true -> d <> [] ->
  decode f (d ++ ":"%byte :: s) =
    if (S (List.length d) <=? f)%nat
    then Ret (PBytes (firstn (Z.to_nat (digits_value 0 d)) s))
    else Diverge.
Proof.
  intros H1 H2. unfold decode. rewrite (decode_size_digits f d s H1 H2).
  destruct (S (List.length d) <=? f)%nat; reflexivity.
Qed.

(** X3: On [i<digits>e] [decode] returns the integer the digits denote, leading zeros included; an empty body [ie] raises [ValueError]. *)
Theorem decode_int_body (f : nat) (d rest : bytes) :
  forallb is_digit_byte d = true ->
  decode f ("i"%byte :: d ++ "e"%byte :: rest) =
    if (S (S (List.length d)) <=? f)%nat
    then match d with
         | [] => Raise ValueError
         | _ => Ret (PInt (digits_value 0 d))
         end
    else Diverge.
Proof.
  intros H. unfold decode. rewrite (decode_int_digits f d rest H).
  destruct (S (S (List.length d)) <=? f)%nat; [|reflexivity].
  destruct d; reflexivity.
Qed.

(** X4: An input that holds no [:] and does not start with [e], [i], [l] or [d] makes [decode] loop for ever on the length prefix: it diverges for every fuel. *)
Theorem decode_no_delimiter (f : nat) (s : bytes) :
  ~ In ":"%byte s ->
  (forall c, hd_error s = Some c -> ~ In c (bs "eild")) ->
  decode f s = Diverge.
Proof. intros H1 H2. unfold decode. rewrite (_decode_no_colon f s H1 H2). reflexivity. Qed.

(** ** Instances of the further properties *)

Lemma encode_decode_round_trip_witness :
  rt_value (PList [PInt 5; PStr (bs "ab"); PDict [(PBytes (bs "k"), PInt 0)]]) = true /\
  exists b N, encode (PList [PInt 5; PStr (bs "ab"); PDict [(PBytes (bs "k"), PInt 0)]]) = Ret b /\
    forall f extra, decode f (b ++ extra) =
      if (N <=? f)%nat
      then Ret (norm_value (PList [PInt 5; PStr (bs "ab"); PDict [(PBytes (bs "k"), PInt 0)]]))
      else Diverge.
Proof. split; [reflexivity|]. apply encode_decode_round_trip. reflexivity. Defined.

Lemma decode_bytes_prefix_witness :
  forallb is_digit_byte (bs "05") = true /\ bs "05" <> [] /\
  decode 10 (bs "05" ++ ":"%byte :: bs "ab") =
    if (S (List.length (bs "05")) <=? 10)%nat
    then Ret (PBytes (firstn (Z.to_nat (digits_value 0 (bs "05"))) (bs "ab")))
    else Diverge.
Proof.
  split; [reflexivity|]. split; [discriminate|].
  apply decode_bytes_prefix; [reflexivity|discriminate].
Defined.

Lemma decode_int_body_witness :
  forallb is_digit_byte (bs "007") = true /\
  decode 10 ("i"%byte :: bs "007" ++ "e"%byte :: []) =
    if (S (S (List.length (bs "007"))) <=? 10)%nat
    then match bs "007" with
         | [] => Raise ValueError
         | _ => Ret (PInt (digits_value 0 (bs "007")))
         end
    else Diverge.
Proof. split; [reflexivity|]. apply decode_int_body. reflexivity. Defined.

Lemma decode_no_delimiter_witness :
  ~ In ":"%byte (bs "x12") /\
  (forall c, hd_error (bs "x12") = Some c -> ~ In c (bs "eild")) /\
  decode 7 (bs "x12") = Diverge.
Proof.
  assert (H1 : ~ In ":"%byte (bs "x12")) by (simpl; intuition discriminate).
  assert (H2 : forall c, hd_error (bs "x12") = Some c -> ~ In c (bs "eild")).
  { intros c Hc. simpl in Hc. injection Hc as <-. simpl. intuition discriminate. }
  split; [exact H1|]. split; [exact H2|]. exact (decode_no_delimiter 7 (bs "x12") H1 H2).
Defined.


Lemma encode_dict_key_not_bytes_witness :
  In (PStr (bs "a"), PInt 1) [(PBytes (bs "b"), PInt 2); (PStr (bs "a"), PInt 1)] /\
  is_bytes (PStr (bs "a")) = false /\
  forall b, encode (PDict [(PBytes (bs "b"), PInt 2); (PStr (bs "a"), PInt 1)]) <> Ret b.
Proof.
  assert (H : In (PStr (bs "a"), PInt 1) [(PBytes (bs "b"), PInt 2); (PStr (bs "a"), PInt 1)])
    by (simpl; auto).
  split; [exact H|]. split; [reflexivity|].
  exact (encode_dict_key_not_bytes _ _ _ H eq_refl).
Defined.


Lemma create_unregistered_names_witness :
  process_packet_type "request_open" = Ret 10 /\
  ((forall args kwargs, create "request_open" args kwargs = Raise ValueError) <->
   ("request_open"%string = "request_open"%string \/
    "request_open"%string = "request_close_all"%string)).
Proof. split; [reflexivity|]. apply (create_unregistered_names _ 10). reflexivity. Defined.

Lemma construct_extra_args_witness :
  (List.length (attributes Ping) <= List.length [PBytes (bs "ab")])%nat /\
  construct Ping ([PBytes (bs "ab")] ++ [PInt 3; PNone]) [] = construct Ping [PBytes (bs "ab")] [].
Proof.
  split; [simpl; lia|]. apply construct_extra_args. simpl. lia.
Defined.

Lemma command_response_witness :
  forallb (fun e => fst e <=? cl_command_id pending_client) (cl_command_events pending_client) = true /\
  let '(_, st2) := command pending_client "command_set_name" []
                     [("node", PBytes (bs "n2")); ("name", PBytes (bs "x"))]%string in
  let '(r3, st3) :=
    on_command [("command_id", PInt (cl_command_id pending_client + 1));
                ("result", PDict [(PStr (bs "status"), PStr (bs "ok"))])]%string st2 in
  let '(r4, st4) :=
    on_command [("command_id", PInt (cl_command_id pending_client + 1)); ("result", PNone)]%string st3 in
  r3 = Ret PNone /\
  cl_command_events st3 = cl_command_events pending_client /\
  nth_error (cl_objects st3) (List.length (cl_objects pending_client)) =
    Some (mk_command_result "command_set_name" (PDict [(PStr (bs "status"), PStr (bs "ok"))]) true) /\
  r4 = Raise UnboundLocalError /\
  cl_command_events st4 = cl_command_events pending_client /\
  cl_objects st4 = cl_objects st3.
Proof. split; [reflexivity|]. apply command_response. reflexivity. Defined.

Lemma exit_fails_pending_witness :
  Forall (fun e => (snd e < List.length (cl_objects pending_client))%nat)
    (cl_command_events pending_client) /\
  let st' := exit_commands pending_client in
  cl_command_events st' = [] /\
  (forall id ref, In (id, ref) (cl_command_events pending_client) ->
   exists cr, nth_error (cl_objects st') ref = Some cr /\
     command_result_get cr = Raise CommandError) /\
  (forall ref, ~ In ref (map snd (cl_command_events pending_client)) ->
   nth_error (cl_objects st') ref = nth_error (cl_objects pending_client) ref).
Proof.
  assert (H : Forall (fun e => (snd e < List.length (cl_objects pending_client))%nat)
                (cl_command_events pending_client)) by (repeat constructor; simpl; lia).
  split; [exact H|]. exact (exit_fails_pending pending_client H).
Defined.

Lemma on_binary_parse_errors_witness :
  from_bytes 10 (bs "li99ee") = Raise UnknownPacketError /\
  (UnknownPacketError = PacketFormatError \/ UnknownPacketError = UnknownPacketError \/
   UnknownPacketError = ValueError \/ UnknownPacketError = TypeError \/
   UnknownPacketError = AttributeError) /\
  on_binary 10 (bs "li99ee") pending_client = (Raise UnknownPacketError, pending_client).
Proof. split; [reflexivity|]. apply on_binary_parse_errors. reflexivity. Defined.

Lemma log_sends_witness :
  cl_running pending_client = true /\
  let '(r, st') := log pending_client (PStr (bs "hi")) in
  r = Ret (List.length (cl_objects pending_client)) /\
  cl_sent st' = cl_sent pending_client ++
    [bs "li104ei" ++ str_of_Z (cl_command_id pending_client + 1) ++ bs "e" ++
     encode_bytes (bs "hi") ++ bs "e"] /\
  cl_command_events st' =
    cl_command_events pending_client ++
      [(cl_command_id pending_client + 1, List.length (cl_objects pending_client))].
Proof. split; [reflexivity|]. apply log_sends. reflexivity. Defined.

Lemma send_instruction_with_params_witness :
  cl_running pending_client = true /\ [("reboot"%string, PInt 1)] <> [] /\
  let '(r, st') := send_instruction pending_client (PBytes (bs "n1")) [("reboot"%string, PInt 1)] in
  r = Raise EncodeError /\
  cl_sent st' = cl_sent pending_client /\
  cl_command_events st' =
    cl_command_events pending_client ++
      [(cl_command_id pending_client + 1, List.length (cl_objects pending_client))].
Proof.
  split; [reflexivity|]. split; [discriminate|].
  apply send_instruction_with_params; [reflexivity|discriminate].
Defined.

Lemma on_startup_frames_witness :
  cl_running connected_client = true /\
  let '(r, st') := on_startup (PBytes (bs "u")) (PBytes (bs "pw")) connected_client in
  r = Ret PNone /\
  cl_sent st' = cl_sent connected_client ++
    [bs "li1ee"; bs "li15e" ++ encode_bytes (bs "u") ++ encode_bytes (bs "pw") ++ bs "e"] /\
  cl_command_events st' = cl_command_events connected_client.
Proof. split; [reflexivity|]. apply on_startup_frames. reflexivity. Defined.

Lemma meta_requires_identity_witness :
  cl_identity_event connected_client = false /\
  set_meta connected_client (PBytes (bs "n1")) (PBytes (bs "k")) (PBytes (bs "v")) =
    (Raise NoIdentity, connected_client) /\
  get_meta connected_client (PBytes (bs "n1")) = (Raise NoIdentity, connected_client).
Proof. split; [reflexivity|]. apply meta_requires_identity. reflexivity. Defined.

Lemma set_meta_after_identity_witness :
  cl_running connected_client = true /\
  let '(_, st1) := handle_set_identitiy [("identity"%string, PBytes (bs "me"))] connected_client in
  let '(r, st2) := set_meta st1 (PBytes (bs "n1")) (PBytes (bs "k")) (PBytes (bs "v")) in
  r = Ret (List.length (cl_objects connected_client)) /\
  cl_sent st2 = cl_sent connected_client ++
    [bs "li110ei" ++ str_of_Z (cl_command_id connected_client + 1) ++ bs "e" ++
     encode_bytes (bs "me") ++ encode_bytes (bs "n1") ++ encode_bytes (bs "k") ++
     encode_bytes (bs "v") ++ bs "e"].
Proof. split; [reflexivity|]. apply set_meta_after_identity. reflexivity. Defined.

Lemma get_identities_not_list_witness :
  (forall l, PBytes (bs "n1") <> PList l) /\
  let '(r, st') := get_identities pending_client (PBytes (bs "n1")) in
  r = Raise PacketFormatError /\ cl_sent st' = cl_sent pending_client /\
  cl_command_events st' =
    cl_command_events pending_client ++
      [(cl_command_id pending_client + 1, List.length (cl_objects pending_client))].
Proof.
  assert (H : forall l, PBytes (bs "n1") <> PList l) by (intros l; discriminate).
  split; [exact H|]. exact (get_identities_not_list pending_client _ H).
Defined.
